(** * Jet template sets: lookup, caching, explicit parse and execution entry

    A shallow embedding of the Go package [jet] (the Set, its template
    cache and loader probing, [Parse], the global scope and the
    [Execute]/[ExecuteI18N] entry points), with the properties stated
    about it.

    Go values are modelled as follows.
    - [string] is [String.string]; a [map[string]T] is a [gmap string T].
    - A function returning [(t *Template, err error)] returns a pair of
      options: [None] is Go's [nil].
    - The mutexes [tmx] and [gmx] guard the maps against concurrent
      callers; the model is sequential and leaves them out. *)

From Stdlib Require Import String Ascii List Bool Arith Lia.
From stdpp Require Import base option gmap strings list.

Local Open Scope string_scope.

(** ** Go's [path] and [path/filepath] packages, as far as the Set uses them *)

(** [strings.Join(elems, "/")]. *)
Fixpoint joinSlash (elems : list string) : string :=
  match elems with
  | [] => ""
  | [e] => e
  | e :: rest => e +:+ "/" +:+ joinSlash rest
  end.

(** The elements between the slashes of a path: ["a//b"] has the elements
    ["a"], [""] and ["b"]. *)
Fixpoint splitSlash (p : string) : list string :=
  match p with
  | "" => [""]
  | String c rest =>
      if Ascii.eqb c "/" then "" :: splitSlash rest
      else match splitSlash rest with
           | e :: es => String c e :: es
           | [] => [String c ""]
           end
  end.

(** [path[:i+1]] and [path[i+1:]] for [i] the index of the last slash
    ([i = -1] when there is none): the pair [path.Split] returns. *)
Fixpoint splitLast (p : string) : string * string :=
  match p with
  | "" => ("", "")
  | String c rest =>
      let '(dir, file) := splitLast rest in
      if Ascii.eqb c "/" then
        (* a later slash exists exactly when [dir] is not empty *)
        if String.eqb dir "" then ("/", rest) else (String c dir, file)
      else
        if String.eqb dir "" then ("", String c file) else (String c dir, file)
  end.

(** Drops the trailing slashes of a path. *)
Fixpoint stripTrailingSlashes (p : string) : string :=
  match p with
  | "" => ""
  | String c rest =>
      let rest' := stripTrailingSlashes rest in
      if Ascii.eqb c "/" && String.eqb rest' "" then "" else String c rest'
  end.

Module path.

(** [path.IsAbs]: the path begins with a slash. *)
Definition IsAbs (p : string) : bool :=
  match p with
  | String c _ => Ascii.eqb c "/"
  | "" => false
  end.

(** One element of the path read by [Clean]; [out] is the stack of elements
    written so far, last one first.  An empty element and ["."] are dropped;
    [".."] removes the element before it when there is one to remove, is
    dropped at the root of a rooted path, and is kept at the head of a path
    that is not rooted. *)
Definition cleanStep (rooted : bool) (out : list string) (e : string) : list string :=
  if String.eqb e "" || String.eqb e "." then out
  else if String.eqb e ".." then
    match out with
    | top :: below => if String.eqb top ".." then e :: out else below
    | [] => if rooted then [] else [e]
    end
  else e :: out.

(** [path.Clean]: the shortest path equivalent to [p] by lexical
    processing. *)
Definition Clean (p : string) : string :=
  if String.eqb p "" then "."
  else
    let rooted := IsAbs p in
    let out := fold_left (cleanStep rooted) (splitSlash p) [] in
    let body := joinSlash (rev out) in
    if rooted then "/" +:+ body
    else if String.eqb body "" then "." else body.

(** [path.Split]. *)
Definition Split (p : string) : string * string := splitLast p.

(** [path.Dir]: all but the last element of the path, cleaned. *)
Definition Dir (p : string) : string := Clean (fst (Split p)).

(** [path.Base]: the last element of the path; ["."] for the empty path and
    ["/"] for a path of slashes only. *)
Definition Base (p : string) : string :=
  if String.eqb p "" then "."
  else
    let p := stripTrailingSlashes p in
    let p := snd (Split p) in
    if String.eqb p "" then "/" else p.

(** [elem[i:]] for [i] the index of the first non-empty element. *)
Fixpoint fromFirstNonEmpty (elem : list string) : list string :=
  match elem with
  | [] => []
  | e :: rest => if String.eqb e "" then fromFirstNonEmpty rest else elem
  end.

(** [path.Join]: the elements from the first non-empty one on, joined by
    slashes and cleaned; the empty string when every element is empty. *)
Definition Join (elem : list string) : string :=
  match fromFirstNonEmpty elem with
  | [] => ""
  | es => Clean (joinSlash es)
  end.

End path.

Module filepath.

(** The operating systems the package is built for, by their path
    separator. *)
Inductive GOOS := unix | windows.

(** [filepath.Separator]. *)
Definition Separator (os : GOOS) : ascii :=
  match os with
  | unix => "/"%char
  | windows => "\"%char
  end.

(** [strings.ReplaceAll(path, string(Separator), "/")]. *)
Fixpoint replaceSeparator (sep : ascii) (p : string) : string :=
  match p with
  | "" => ""
  | String c rest =>
      String (if Ascii.eqb c sep then "/"%char else c) (replaceSeparator sep rest)
  end.

(** [filepath.ToSlash]: the path with each separator replaced by a slash;
    the path itself where the separator is the slash. *)
Definition ToSlash (os : GOOS) (p : string) : string :=
  if Ascii.eqb (Separator os) "/" then p
  else replaceSeparator (Separator os) p.

End filepath.

(** ** Errors and dynamic values *)

(** Go's [interface{}] and [reflect.Value].  A [reflect.Value] is a box
    around the value it was made from; an [interface{}] holds nothing, a
    plain value, or such a box. *)
Inductive any : Type :=
  | anyNil
  | anyInt (n : Z)
  | anyString (s : string)
  | anyBool (b : bool)
  | anyFunc (id : nat)
  | anyValue (v : Value)
with Value : Type :=
  | ValueOf (i : any).

(** [i == nil] *)
Definition isNil (i : any) : bool :=
  match i with
  | anyNil => true
  | _ => false
  end.

(** The zero [reflect.Value], which [reflect.ValueOf(nil)] returns. *)
Definition zeroValue : Value := ValueOf anyNil.

(** Nesting depth of the [reflect.Value] boxes of a dynamic value. *)
Fixpoint boxDepth (i : any) : nat :=
  match i with
  | anyValue (ValueOf j) => S (boxDepth j)
  | _ => 0
  end.

(** Go's [error]: the values of [errors.New] and [fmt.Errorf], and the
    error a recovered execution fault is converted to. *)
Inductive error : Type :=
  | errorString (msg : string)
  | ExecutionFault (fault : any).

Module errors.
Definition New (msg : string) : error := errorString msg.
End errors.

Module fmt.
(** [fmt.Errorf(before + "%s" + after, arg)]: a format with one [%s] verb. *)
Definition Errorf (before arg after : string) : error :=
  errorString (before +:+ arg +:+ after).
End fmt.

(** [type VarMap map[string]reflect.Value] *)
Abbreviation VarMap := (gmap string Value).

(** ** Loaders *)

(** An [io.ReadCloser] as [ioutil.ReadAll] sees it: the content read, or
    the error reading ran into. *)
Inductive ReadCloser : Type :=
  | readerOf (content : string)
  | brokenReader (e : error).

Module ioutil.
Definition ReadAll (f : ReadCloser) : string + error :=
  match f with
  | readerOf content => inl content
  | brokenReader e => inr e
  end.
Definition NopCloser (content : string) : ReadCloser := readerOf content.
End ioutil.

(** [type Loader interface]: the two capabilities a Set asks of a loader.
    [Open] returns a reader or an error, never both and never neither. *)
Class Loader (L : Type) := {
  Exists : L -> string -> string * bool;
  Open : L -> string -> ReadCloser + error
}.

(** [type InMemLoader struct] *)
Record InMemLoader := { files : gmap string string }.

Definition NewInMemLoader : InMemLoader := {| files := ∅ |}.

Definition InMemLoader_Open (l : InMemLoader) (templatePath : string)
  : ReadCloser + error :=
  match files l !! templatePath with
  | None => inr (fmt.Errorf "" templatePath " does not exist")
  | Some f => inl (ioutil.NopCloser f)
  end.

Definition InMemLoader_Exists (l : InMemLoader) (templatePath : string) : string * bool :=
  match files l !! templatePath with
  | None => ("", false)
  | Some _ => (templatePath, true)
  end.

(** [func (l *InMemLoader) Set(templatePath, contents string)] *)
Definition InMemLoader_Set (os : filepath.GOOS) (templatePath contents : string)
    (l : InMemLoader) : InMemLoader :=
  let templatePath := filepath.ToSlash os templatePath in
  let templatePath := path.Join ["/"; templatePath] in
  {| files := <[templatePath := contents]> (files l) |}.

#[global] Instance InMemLoader_Loader : Loader InMemLoader :=
  {| Exists := InMemLoader_Exists; Open := InMemLoader_Open |}.

(** ** Templates, Sets and lookup *)

(** A [*Set] held by a template or a runtime: the address of the Set, or
    [nil]. *)
Definition SetRef := option nat.

(** One call of a loader method, with the path it was given. *)
Inductive LoaderCall : Type :=
  | CallExists (canonicalPath : string)
  | CallOpen (templatePath : string).

(** What lies outside the Set and changes while it works: the calls its
    loader has received, oldest first, and the number of [Template] objects
    allocated so far (the next free address). *)
Record World := {
  loaderCalls : list LoaderCall;
  allocated : nat
}.

Definition logCall (c : LoaderCall) (w : World) : World :=
  {| loaderCalls := loaderCalls w ++ [c]; allocated := allocated w |}.

(** Several calls in a row. *)
Definition logCalls (cs : list LoaderCall) (w : World) : World :=
  fold_left (fun w c => logCall c w) cs w.

Section Jet.

(** The parser's node types: the Set and the execution entry pass them
    along and never look inside. *)
Context {ListNode BlockNode : Type}.

(** [type Template struct], with the fields this part of the package reads.
    A [*Template] is the template together with the address [addr] of the
    object: two pointers are the same pointer when the addresses agree.
    [extends] and [imports] are fixed before a template is handed out. *)
#[local] Unset Elimination Schemes.
Inductive Template : Type := mkTemplate {
  addr : nat;
  ParseName : string;
  extends : option Template;
  imports : list Template;
  processedBlocks : gmap string BlockNode;
  Root : ListNode;
  set : SetRef
}.
#[local] Set Elimination Schemes.

(** The loader's type and its two methods. *)
Context {L : Type} `{Loader L}.

(** [type Set struct].  [templates] maps a path to a [*Template], which may
    be [nil].  The escapee and the two mutexes are not read by the
    functions below and are left out. *)
Record Set_ := {
  loader : L;
  templates : gmap string (option Template);
  globals : VarMap;
  extensions : list string;
  developmentMode : bool;
  leftDelim : string;
  rightDelim : string
}.

Definition defaultExtensions : list string :=
  [ "";  (* in case the path is given with the correct extension already *)
    ".jet";
    ".html.jet";
    ".jet.html" ].

Definition withTemplates (m : gmap string (option Template)) (s : Set_) : Set_ :=
  {| loader := loader s; templates := m; globals := globals s;
     extensions := extensions s; developmentMode := developmentMode s;
     leftDelim := leftDelim s; rightDelim := rightDelim s |}.

Definition SetDevelopmentMode (b : bool) (s : Set_) : Set_ :=
  {| loader := loader s; templates := templates s; globals := globals s;
     extensions := extensions s; developmentMode := b;
     leftDelim := leftDelim s; rightDelim := rightDelim s |}.

Definition LookupGlobal (s : Set_) (key : string) : any * bool :=
  match globals s !! key with
  | Some val => (anyValue val, true)
  | None => (anyValue zeroValue, false)
  end.

Definition AddGlobal (key : string) (i : any) (s : Set_) : Set_ :=
  {| loader := loader s; templates := templates s;
     globals := <[key := ValueOf i]> (globals s);
     extensions := extensions s; developmentMode := developmentMode s;
     leftDelim := leftDelim s; rightDelim := rightDelim s |}.

Definition AddGlobalFunc (key : string) (fn : nat) (s : Set_) : Set_ :=
  AddGlobal key (anyFunc fn) s.

Definition NewSetLoader (l : L) : Set_ :=
  {| loader := l; templates := ∅; globals := ∅;
     extensions := [] ++ defaultExtensions; developmentMode := false;
     leftDelim := ""; rightDelim := "" |}.

Definition Delims (left right : string) (s : Set_) : Set_ :=
  {| loader := loader s; templates := templates s; globals := globals s;
     extensions := extensions s; developmentMode := developmentMode s;
     leftDelim := left; rightDelim := right |}.

Definition SetExtensions (exts : list string) (s : Set_) : Set_ :=
  {| loader := loader s; templates := templates s; globals := globals s;
     extensions := exts; developmentMode := developmentMode s;
     leftDelim := leftDelim s; rightDelim := rightDelim s |}.

(** The [Exists] calls a loader receives when the candidates [exts] of
    [templatePath] are probed in order. *)
Definition probes (templatePath : string) (exts : list string) : list LoaderCall :=
  map (fun extension => CallExists (templatePath +:+ extension)) exts.

(** What a lookup returns: Go's [(t, err)], the Set and the world after
    the call. *)
Definition Lookup : Type := (option Template * option error) * Set_ * World.

(** The operating system the package runs on. *)
Variable os : filepath.GOOS.

(** [func (s *Set) parse(templatePath, contents string, cacheAfterParsing
    bool)], which is defined with the parser: it returns Go's [(t, err)].  It
    resolves the [extends] and [import] directives of the source through the
    Set's own lookup, so it may grow the template cache and call the loader;
    the other fields of the Set it does not write. *)
Variable parse :
  Set_ -> string -> string -> bool -> World ->
  (option Template * option error) * gmap string (option Template) * World.

Definition loadFromFile (s : Set_) (templatePath : string)
    (cacheAfterParsing : bool) (w : World) : Lookup :=
  let w := logCall (CallOpen templatePath) w in
  match Open (loader s) templatePath with
  | inr err => ((None, Some err), s, w)
  | inl f =>
      match ioutil.ReadAll f with
      | inr err => ((None, Some err), s, w)
      | inl content =>
          let '(r, m, w) := parse s templatePath content cacheAfterParsing w in
          (r, withTemplates m s, w)
      end
  end.

(** The loop of [getTemplateFromCache] over the extensions still to try. *)
Fixpoint cacheProbe (m : gmap string (option Template)) (templatePath : string)
    (exts : list string) : option Template * bool :=
  match exts with
  | [] => (None, false)
  | extension :: rest =>
      let canonicalPath := templatePath +:+ extension in
      match m !! canonicalPath with
      | Some t => (t, true)
      | None => cacheProbe m templatePath rest
      end
  end.

Definition getTemplateFromCache (s : Set_) (templatePath : string)
  : option Template * bool :=
  (* check path with all possible extensions in cache *)
  cacheProbe (templates s) templatePath (extensions s).

(** The loop of [getTemplateFromLoader] over the extensions still to
    try. *)
Fixpoint loaderProbe (s : Set_) (templatePath : string) (cacheAfterParsing : bool)
    (exts : list string) (w : World) : Lookup :=
  match exts with
  | [] => ((None, Some (fmt.Errorf "template " templatePath " could not be found")), s, w)
  | extension :: rest =>
      let canonicalPath := templatePath +:+ extension in
      let w := logCall (CallExists canonicalPath) w in
      if snd (Exists (loader s) canonicalPath)
      then loadFromFile s canonicalPath cacheAfterParsing w
      else loaderProbe s templatePath cacheAfterParsing rest w
  end.

Definition getTemplateFromLoader (s : Set_) (templatePath : string)
    (cacheAfterParsing : bool) (w : World) : Lookup :=
  (* check path with all possible extensions in loader *)
  loaderProbe s templatePath cacheAfterParsing (extensions s) w.

Definition getTemplate (s : Set_) (templatePath : string)
    (cacheAfterParsing : bool) (w : World) : Lookup :=
  let '(t, found) :=
    if negb (developmentMode s) then getTemplateFromCache s templatePath
    else (None, false) in
  if found then ((t, None), s, w)
  else
    let '((t, err), s, w) := getTemplateFromLoader s templatePath cacheAfterParsing w in
    if bool_decide (err = None) && cacheAfterParsing && negb (developmentMode s)
    then ((t, err), withTemplates (<[templatePath := t]> (templates s)) s, w)
    else ((t, err), s, w).

Definition getSiblingTemplate (s : Set_) (templatePath siblingPath : string)
    (cacheAfterParsing : bool) (w : World) : Lookup :=
  let templatePath := filepath.ToSlash os templatePath in
  let siblingPath := filepath.ToSlash os siblingPath in
  let templatePath :=
    if negb (path.IsAbs templatePath) then
      let siblingDir := path.Dir siblingPath in
      path.Join [siblingDir; templatePath]
    else templatePath in
  getTemplate s templatePath cacheAfterParsing w.

Definition GetTemplate (s : Set_) (templatePath : string) (w : World) : Lookup :=
  getSiblingTemplate s templatePath "/" true w.

Definition Parse (s : Set_) (templatePath contents : string) (w : World) : Lookup :=
  let templatePath := filepath.ToSlash os templatePath in
  let base := path.Base templatePath in
  if String.eqb base "." || String.eqb base "/"
  then ((None, Some (errors.New "template path has no base name")), s, w)
  else
    (* make sure it's absolute and clean it *)
    let templatePath := path.Join ["/"; templatePath] in
    let '(r, m, w) := parse s templatePath contents false w in
    (r, withTemplates m s, w).

(** ** Execution entry *)

(** [type Translator interface] *)
Record Translator := {
  Msg : string -> string -> string;
  Trans : string -> string -> list any -> string
}.

(** An [io.Writer]: the sink it stands for and what was written to it. *)
Record io_Writer := {
  sink : nat;
  written : string
}.

(** [type Runtime struct], with the fields [ExecuteI18N] assigns. *)
Record Runtime := {
  blocks : gmap string BlockNode;
  translator : option Translator;
  variables : VarMap;
  Runtime_set : SetRef;
  Writer : option io_Writer;
  context : Value
}.

(** How the evaluator leaves [st.executeList]: it returns, or it raises a
    fault (a Go panic with the value [fault]); [st] is the runtime as the
    evaluator left it. *)
Inductive Outcome : Type :=
  | Finished (st : Runtime)
  | Panicked (st : Runtime) (fault : any).

(** How a Go call ends: it returns its results, or a panic leaves it and
    unwinds into the caller. *)
Inductive Completion (A : Type) : Type :=
  | Returns (a : A)
  | Unwinds (fault : any).
#[global] Arguments Returns {A} a.
#[global] Arguments Unwinds {A} fault.

(** [func (st *Runtime) executeList(list *ListNode)], the evaluator. *)
Variable executeList : Runtime -> ListNode -> Outcome.

(** The zero [Runtime]. *)
Definition zeroRuntime : Runtime :=
  {| blocks := ∅; translator := None; variables := ∅; Runtime_set := None;
     Writer := None; context := zeroValue |}.

(** Modelled from the spec: [pool_State], the pool of runtime states, which
    is declared with the evaluator.  Section 4.4, step 1: a runtime-state
    object is acquired from the pool, a pooled one when there is one. *)
Definition pool_State_Get (pool : list Runtime) : Runtime * list Runtime :=
  match pool with
  | st :: rest => (st, rest)
  | [] => (zeroRuntime, [])
  end.

(** Modelled from the spec: [func (st *Runtime) recover(err *error)], the
    call [ExecuteI18N] defers, which is defined with the evaluator.  Section
    4.4, step 6: on return, success or failure, the runtime-state object is
    released back to the pool exactly once, and a fault raised during
    evaluation is intercepted and converted into the returned error. *)
Definition Runtime_recover (o : Outcome) (err : option error) (pool : list Runtime)
  : Completion (option error) * list Runtime :=
  match o with
  | Finished st => (Returns err, st :: pool)
  | Panicked st fault => (Returns (Some (ExecutionFault fault)), st :: pool)
  end.

(** [for t.extends != nil { t = t.extends }] *)
Fixpoint rootmost (t : Template) : Template :=
  match t with
  | mkTemplate _ _ (Some parent) _ _ _ _ => rootmost parent
  | mkTemplate _ _ None _ _ _ _ => t
  end.

(** The assignments [st.blocks = v], [st.translator = v], ... to one field
    of a runtime. *)
Definition setBlocks (v : gmap string BlockNode) (st : Runtime) : Runtime :=
  {| blocks := v; translator := translator st; variables := variables st;
     Runtime_set := Runtime_set st; Writer := Writer st; context := context st |}.

Definition setTranslator (v : option Translator) (st : Runtime) : Runtime :=
  {| blocks := blocks st; translator := v; variables := variables st;
     Runtime_set := Runtime_set st; Writer := Writer st; context := context st |}.

Definition setVariables (v : VarMap) (st : Runtime) : Runtime :=
  {| blocks := blocks st; translator := translator st; variables := v;
     Runtime_set := Runtime_set st; Writer := Writer st; context := context st |}.

Definition setSet (v : SetRef) (st : Runtime) : Runtime :=
  {| blocks := blocks st; translator := translator st; variables := variables st;
     Runtime_set := v; Writer := Writer st; context := context st |}.

Definition setWriter (v : option io_Writer) (st : Runtime) : Runtime :=
  {| blocks := blocks st; translator := translator st; variables := variables st;
     Runtime_set := Runtime_set st; Writer := v; context := context st |}.

Definition setContext (v : Value) (st : Runtime) : Runtime :=
  {| blocks := blocks st; translator := translator st; variables := variables st;
     Runtime_set := Runtime_set st; Writer := Writer st; context := v |}.

(** Lines 282 to 295 of [ExecuteI18N]: the assignments to the runtime [st]
    taken from the pool, the walk up the [extends] links and the binding of
    the data context.  The result is the runtime and the template whose
    [Root] line 297 hands to the evaluator. *)
Definition ExecuteI18N_bind (st : Runtime) (t : Template)
    (translator : option Translator) (w : io_Writer) (variables : VarMap)
    (data : any) : Runtime * Template :=
  let st := setBlocks (processedBlocks t) st in
  let st := setTranslator translator st in
  let st := setVariables variables st in
  let st := setSet (set t) st in
  let st := setWriter (Some w) st in
  (* resolve extended template *)
  let t := rootmost t in
  let st := if negb (isNil data) then setContext (ValueOf data) st else st in
  (st, t).

Definition ExecuteI18N (t : Template) (translator : option Translator)
    (w : io_Writer) (variables : VarMap) (data : any) (pool : list Runtime)
  : Completion (option error) * list Runtime :=
  let '(st, pool) := pool_State_Get pool in
  (* defer st.recover(&err) *)
  let '(st, t) := ExecuteI18N_bind st t translator w variables data in
  Runtime_recover (executeList st (Root t)) None pool.

(** Execute executes the template in the w Writer *)
Definition Execute (t : Template) (w : io_Writer) (variables : VarMap)
    (data : any) (pool : list Runtime) : Completion (option error) * list Runtime :=
  ExecuteI18N t None w variables data pool.

(** [t'] is reached from [t] by following [extends] links. *)
Inductive extendsChain : Template -> Template -> Prop :=
  | chain_here t : extendsChain t t
  | chain_up t parent t' :
      extends t = Some parent -> extendsChain parent t' -> extendsChain t t'.

End Jet.

#[global] Arguments Template : clear implicits.
#[global] Arguments Set_ : clear implicits.
#[global] Arguments Lookup : clear implicits.
#[global] Arguments Runtime : clear implicits.
#[global] Arguments Outcome : clear implicits.

(** ** The rest of the package: scopes, blocks, serialization, the file
    system loader *)

Module filepath_os.

(** [filepath.FromSlash]: the path with each slash replaced by the
    separator; the path itself where the separator is the slash. *)
Fixpoint replaceSlash (sep : ascii) (p : string) : string :=
  match p with
  | "" => ""
  | String c rest =>
      String (if Ascii.eqb c "/" then sep else c) (replaceSlash sep rest)
  end.

Definition FromSlash (os : filepath.GOOS) (p : string) : string :=
  if Ascii.eqb (filepath.Separator os) "/" then p
  else replaceSlash (filepath.Separator os) p.

End filepath_os.

(** The character [c] does not occur in the string. *)
Fixpoint charFree (c : ascii) (p : string) : bool :=
  match p with
  | "" => true
  | String x rest => negb (Ascii.eqb x c) && charFree c rest
  end.

(** The elements [path.Clean] keeps as they are: not empty, not a dot
    element, and without a slash. *)
Definition plainElement (e : string) : Prop :=
  e ≠ "" ∧ e ≠ "." ∧ e ≠ ".." ∧ charFree "/" e = true.

(** [os.FileInfo], as far as the loader reads it. *)
Record FileInfo := { IsDir : bool }.

(** The operating system under a file system loader: its separator, its
    [filepath.Join], and what [os.Stat] and [os.Open] answer for a path. *)
Record Host := {
  goos : filepath.GOOS;
  filepath_Join : list string -> string;
  os_Stat : string -> FileInfo + error;
  os_Open : string -> ReadCloser + error
}.

(** [type OSFileSystemLoader struct], with the host it runs on. *)
Record OSFileSystemLoader := {
  dir : string;
  host : Host
}.

Definition NewOSFileSystemLoader (h : Host) (dirPath : string) : OSFileSystemLoader :=
  {| dir := filepath_os.FromSlash (goos h) dirPath; host := h |}.

Definition OSFileSystemLoader_Open (l : OSFileSystemLoader) (templatePath : string)
  : ReadCloser + error :=
  os_Open (host l)
    (filepath_Join (host l) [dir l; filepath_os.FromSlash (goos (host l)) templatePath]).

Definition OSFileSystemLoader_Exists (l : OSFileSystemLoader) (templatePath : string)
  : string * bool :=
  let templatePath :=
    filepath_Join (host l) [dir l; filepath_os.FromSlash (goos (host l)) templatePath] in
  match os_Stat (host l) templatePath with
  | inl stat => if negb (IsDir stat) then (templatePath, true) else ("", false)
  | inr _ => ("", false)
  end.

#[global] Instance OSFileSystemLoader_Loader : Loader OSFileSystemLoader :=
  {| Exists := OSFileSystemLoader_Exists; Open := OSFileSystemLoader_Open |}.

(** [func (scope VarMap) Set(name string, v interface{}) VarMap] and its two
    siblings for functions and writers, which are Go functions both. *)
Definition VarMap_Set (name : string) (v : any) (scope : VarMap) : VarMap :=
  <[name := ValueOf v]> scope.

Definition VarMap_SetFunc (name : string) (v : nat) (scope : VarMap) : VarMap :=
  <[name := ValueOf (anyFunc v)]> scope.

Definition VarMap_SetWriter (name : string) (v : nat) (scope : VarMap) : VarMap :=
  <[name := ValueOf (anyFunc v)]> scope.

(** [strings.Join(lines, "\n")] *)
Definition newline : string := String (ascii_of_nat 10) "".

Fixpoint joinLines (lines : list string) : string :=
  match lines with
  | [] => ""
  | [l] => l
  | l :: rest => l +:+ newline +:+ joinLines rest
  end.

Section Rest.

Context {ListNode BlockNode : Type}.

(** [func (t *Template) addBlocks(blocks map[string]*BlockNode)].  A nil
    map reads as the empty one, so making the map when it is nil changes
    nothing that can be read; the range over [blocks] visits every key
    once. *)
Definition addBlocks (blocks : gmap string BlockNode) (t : Template ListNode BlockNode)
  : Template ListNode BlockNode :=
  if (size blocks =? 0)%nat then t
  else
    {| addr := addr t; ParseName := ParseName t; extends := extends t;
       imports := imports t;
       processedBlocks :=
         map_fold (fun key value m => <[key := value]> m) (processedBlocks t) blocks;
       Root := Root t; set := set t |}.

(** What the parser's [ListNode] offers to [String]: the number of its
    nodes and its own [String] method. *)
Variable Nodes_len : ListNode -> nat.
Variable ListNode_String : ListNode -> string.

(** [strconv.Quote], which the verb [%q] applies to a string. *)
Variable Quote : string -> string.

(** [fmt.Sprintf(before + "%q" + after, arg)] *)
Definition Sprintf_q (before arg after : string) : string :=
  before +:+ Quote arg +:+ after.

(** The loop of [String] over the imports, [k] being the index of the next
    one. *)
Fixpoint importsLoop (extendsNil : bool) (k : nat)
    (imports : list (Template ListNode BlockNode)) (template : string) : string :=
  match imports with
  | [] => template
  | _import :: rest =>
      let template :=
        if extendsNil && (k =? 0)%nat
        then template +:+ Sprintf_q "{{import " (ParseName _import) "}}"
        else template +:+ Sprintf_q (newline +:+ "{{import ") (ParseName _import) "}}" in
      importsLoop extendsNil (S k) rest template
  end.

(** [func (t *Template) String() (template string)] *)
Definition Template_String (t : Template ListNode BlockNode) : string :=
  let template := "" in
  let template :=
    match extends t with
    | Some parent =>
        if (0 <? Nodes_len (Root t))%nat && (length (imports t) =? 0)%nat
        then template +:+ Sprintf_q "{{extends " (ParseName parent) "}}"
        else template +:+ Sprintf_q "{{extends " (ParseName parent) "}}"
    | None => template
    end in
  let template :=
    importsLoop (bool_decide (extends t = None)) 0 (imports t) template in
  if negb (bool_decide (extends t = None)) || (0 <? length (imports t))%nat then
    if (0 <? Nodes_len (Root t))%nat
    then template +:+ newline +:+ ListNode_String (Root t)
    else template
  else template +:+ ListNode_String (Root t).

(** The lines [String] is made of: the extends directive, the import
    directives in order, and the body. *)
Definition directiveLines (t : Template ListNode BlockNode) : list string :=
  match extends t with
  | Some parent => [Sprintf_q "{{extends " (ParseName parent) "}}"]
  | None => []
  end
  ++ map (fun i => Sprintf_q "{{import " (ParseName i) "}}") (imports t).

End Rest.

(** NewSet creates a new set, dirs is a list of directories to be searched
    for templates.  The escapee is not part of the model, so [NewHTMLSet] is
    the same function. *)
Definition NewSet {ListNode BlockNode : Type} (h : Host) (dir : string)
  : Set_ ListNode BlockNode OSFileSystemLoader :=
  NewSetLoader {| dir := dir; host := h |}.

(** ** A concrete Set over the in-memory loader, for worked examples *)

(** Node trees of plain text: a tree is the list of its text nodes, a block
    is its body. *)
Definition TextTree : Type := list string.

(** Modelled from the spec: [Set.parse] on a source that declares no
    extends, no import and no block (sections 3 and 4.2, step 2).  A new
    [Template] is allocated and bound to the canonical path it is parsed
    under; with no directive to resolve, neither the cache nor the loader is
    touched. *)
Definition parsePlain (s : Set_ TextTree string InMemLoader)
    (templatePath contents : string) (cacheAfterParsing : bool) (w : World)
  : (option (Template TextTree string) * option error)
    * gmap string (option (Template TextTree string)) * World :=
  let t := {| addr := allocated w; ParseName := templatePath; extends := None;
              imports := []; processedBlocks := ∅; Root := [contents];
              set := Some 0 |} in
  ((Some t, None), templates s,
   {| loaderCalls := loaderCalls w; allocated := S (allocated w) |}).

(** The world before any lookup. *)
Definition world0 : World := {| loaderCalls := []; allocated := 0 |}.

(** A loader holding the one file [/foo.jet]. *)
Definition fooJetLoader : InMemLoader :=
  InMemLoader_Set filepath.unix "foo.jet" "text" NewInMemLoader.

(** A loader holding [/foo] and [/foo.jet]. *)
Definition fooBothLoader : InMemLoader :=
  InMemLoader_Set filepath.unix "/foo" "plain"
    (InMemLoader_Set filepath.unix "/foo.jet" "jet" NewInMemLoader).

(** A new Set over [/foo.jet], with the default extensions. *)
Definition fooJetSet : Set_ TextTree string InMemLoader := NewSetLoader fooJetLoader.


(** The template [parsePlain] makes of [/foo.jet] as the [n]-th object
    allocated. *)
Definition fooJetTemplate (n : nat) : Template TextTree string :=
  {| addr := n; ParseName := "/foo.jet"; extends := None; imports := [];
     processedBlocks := ∅; Root := ["text"]; set := Some 0 |}.

(** A new Set over [/foo] and [/foo.jet], with the default extensions. *)
Definition fooBothSet : Set_ TextTree string InMemLoader := NewSetLoader fooBothLoader.

(** A new Set whose loader holds nothing. *)
Definition emptySet : Set_ TextTree string InMemLoader := NewSetLoader NewInMemLoader.

(** A template with no parent, and a child extending it with a block of its
    own. *)
Definition baseTemplate : Template TextTree string :=
  {| addr := 0; ParseName := "/base.jet"; extends := None; imports := [];
     processedBlocks := {[ "content" := "A" ]}; Root := ["base body"];
     set := Some 0 |}.

Definition childTemplate : Template TextTree string :=
  {| addr := 1; ParseName := "/child.jet"; extends := Some baseTemplate;
     imports := []; processedBlocks := {[ "content" := "B" ]}; Root := [];
     set := Some 0 |}.

Definition stdout : io_Writer := {| sink := 1; written := "" |}.

(** An evaluator that writes each text node to the sink and raises a fault
    on an empty tree. *)
Definition writeNodes (st : Runtime string) (root : TextTree) : Outcome string :=
  match root with
  | [] => Panicked st (anyString "empty tree")
  | _ =>
      Finished
        (setWriter
           (option_map (fun w => {| sink := sink w;
                                    written := written w +:+ joinSlash root |})
                       (Writer st)) st)
  end.

(** The in-memory loaders a program can build: a new one, and one more file
    registered by [Set]. *)
Inductive builtBySet (os : filepath.GOOS) : InMemLoader -> Prop :=
  | built_new : builtBySet os NewInMemLoader
  | built_Set templatePath contents l :
      builtBySet os l -> builtBySet os (InMemLoader_Set os templatePath contents l).

(** [parsePlain] over any loader. *)
Definition parseText {L : Type} (s : Set_ TextTree string L)
    (templatePath contents : string) (cacheAfterParsing : bool) (w : World)
  : (option (Template TextTree string) * option error)
    * gmap string (option (Template TextTree string)) * World :=
  let t := {| addr := allocated w; ParseName := templatePath; extends := None;
              imports := []; processedBlocks := ∅; Root := [contents];
              set := Some 0 |} in
  ((Some t, None), templates s,
   {| loaderCalls := loaderCalls w; allocated := S (allocated w) |}).

(** A Unix host whose disk holds the directory [/srv/views/mail], the file
    [/srv/views/mail.jet] and the file [/srv/views/locked.jet], which cannot
    be opened. *)
Definition mailHost : Host :=
  {| goos := filepath.unix;
     filepath_Join := path.Join;
     os_Stat := fun name =>
       if String.eqb name "/srv/views/mail" then inl {| IsDir := true |}
       else if String.eqb name "/srv/views/mail.jet" then inl {| IsDir := false |}
       else if String.eqb name "/srv/views/locked.jet" then inl {| IsDir := false |}
       else inr (errorString "no such file or directory");
     os_Open := fun name =>
       if String.eqb name "/srv/views/mail.jet" then inl (readerOf "Dear reader")
       else inr (errorString "permission denied") |}.

Definition mailSet : Set_ TextTree string OSFileSystemLoader :=
  NewSet mailHost "/srv/views".

(** The Set over [/foo] and [/foo.jet] after [GetTemplate("/foo.jet")]. *)
Definition fooBothSetWarm : Set_ TextTree string InMemLoader :=
  snd (fst (GetTemplate filepath.unix parsePlain fooBothSet "/foo.jet" world0)).

(** A template importing two others and extending the base template. *)
Definition importingTemplate : Template TextTree string :=
  {| addr := 3; ParseName := "/page.jet"; extends := Some baseTemplate;
     imports := [childTemplate; baseTemplate]; processedBlocks := ∅;
     Root := ["page body"]; set := Some 0 |}.

(** * Properties *)

(** ** Strings and paths *)

Lemma append_empty_r (p : string) : p +:+ "" = p.
Proof.
  induction p as [|c p IH]; [done |].
  change (String c (p +:+ "") = String c p). by rewrite IH.
Qed.

Lemma ToSlash_unix (p : string) : filepath.ToSlash filepath.unix p = p.
Proof. reflexivity. Qed.

Lemma boxDepth_box (v : any) : boxDepth (anyValue (ValueOf v)) = S (boxDepth v).
Proof. reflexivity. Qed.

(** A value is never the box around itself. *)
Lemma box_neq (v : any) : anyValue (ValueOf v) ≠ v.
Proof.
  intros E. apply (f_equal boxDepth) in E. rewrite boxDepth_box in E. lia.
Qed.

(** [path.Clean] on the table of Go's own tests of it. *)
Example Clean_table :
  map path.Clean
    [""; "abc"; "abc/def"; "a/b/c"; "."; ".."; "../.."; "../../abc"; "/abc"; "/";
     "abc/"; "abc/def/"; "a/b/c/"; "./"; "../"; "../../"; "/abc/";
     "abc//def//ghi"; "//abc"; "///abc"; "//abc//"; "abc//";
     "abc/./def"; "/./abc/def"; "abc/.";
     "abc/def/ghi/../jkl"; "abc/def/../ghi/../jkl"; "abc/def/.."; "abc/def/../..";
     "/abc/def/../.."; "abc/def/../../.."; "/abc/def/../../..";
     "abc/def/../../../ghi/jkl/../../../mno";
     "abc/./../def"; "abc//./../def"; "abc/../../././../def"]
  = ["."; "abc"; "abc/def"; "a/b/c"; "."; ".."; "../.."; "../../abc"; "/abc"; "/";
     "abc"; "abc/def"; "a/b/c"; "."; ".."; "../.."; "/abc";
     "abc/def/ghi"; "/abc"; "/abc"; "/abc"; "abc";
     "abc/def"; "/abc/def"; "abc";
     "abc/def/jkl"; "abc/jkl"; "abc"; ".";
     "/"; ".."; "/";
     "../../mno";
     "def"; "def"; "../../def"].
Proof. reflexivity. Qed.

Example Base_table :
  map path.Base [""; "."; "/."; "/"; "////"; "x/"; "abc"; "abc/def"; "a/b/.x";
                 "a/b/c."; "a/b/c.x"]
  = ["."; "."; "."; "/"; "/"; "x"; "abc"; "def"; ".x"; "c."; "c.x"].
Proof. reflexivity. Qed.

Example Dir_table :
  map path.Dir [""; "."; "/."; "/"; "////"; "/foo"; "x/"; "abc"; "abc/def";
                "abc////def"; "a/b/.x"; "a/b/c."; "a/b/c.x"]
  = ["."; "."; "/"; "/"; "/"; "/"; "x"; "."; "abc"; "abc"; "a/b"; "a/b"; "a/b"].
Proof. reflexivity. Qed.

Example Join_table :
  map path.Join [[]; [""]; ["a"]; ["a"; "b"]; ["a"; ""]; [""; "b"]; ["/"; "a"];
                 ["/"; ""]; ["a/"; "b"]; ["a/"; ""]; [""; ""]]
  = [""; ""; "a"; "a/b"; "a"; "b"; "/a"; "/"; "a/b"; "a"; ""].
Proof. reflexivity. Qed.

Example Split_table :
  map path.Split ["a/b"; "a/b/"; "a/"; "a"; "/"]
  = [("a/", "b"); ("a/b/", ""); ("a/", ""); ("", "a"); ("/", "")].
Proof. reflexivity. Qed.

Section Properties.

Context {ListNode BlockNode L : Type} `{Loader L}.

(** ** The global scope *)

Lemma AddGlobal_globals (s : Set_ ListNode BlockNode L) (k : string) (v : any) :
  globals (AddGlobal k v s) = <[k := ValueOf v]> (globals s).
Proof. reflexivity. Qed.

(** C10: after [s.AddGlobal(k, v)], [s.LookupGlobal(k)] reports the key as
    found and returns the [reflect.Value] box made from [v] by
    [reflect.ValueOf], which is not the value [v] itself. *)
Theorem C10_AddGlobal_then_LookupGlobal
    (s : Set_ ListNode BlockNode L) (k : string) (v : any) :
  LookupGlobal (AddGlobal k v s) k = (anyValue (ValueOf v), true)
  ∧ anyValue (ValueOf v) ≠ v.
Proof.
  split; [| apply box_neq].
  unfold LookupGlobal. rewrite AddGlobal_globals.
  by rewrite lookup_insert_eq.
Qed.

(** Registering a global leaves every other key as it was. *)
Lemma AddGlobal_other_key (s : Set_ ListNode BlockNode L) (k k' : string) (v : any) :
  k ≠ k' → LookupGlobal (AddGlobal k v s) k' = LookupGlobal s k'.
Proof.
  intros Hne. unfold LookupGlobal. rewrite AddGlobal_globals.
  by rewrite lookup_insert_ne.
Qed.

(** ** The execution entry *)

Lemma rootmost_unfold (t : Template ListNode BlockNode) :
  rootmost t = match extends t with
               | Some parent => rootmost parent
               | None => t
               end.
Proof. by destruct t as [a n [e|] i b r o]. Qed.

(** Induction along the [extends] links of a template. *)
Lemma extends_ind (P : Template ListNode BlockNode → Prop) :
  (∀ t, extends t = None → P t) →
  (∀ t parent, extends t = Some parent → P parent → P t) →
  ∀ t, P t.
Proof.
  intros Hroot Hstep.
  fix IH 1. intros [a n [e|] i b r o].
  - apply (Hstep _ e); [reflexivity | apply IH].
  - by apply Hroot.
Qed.

Lemma rootmost_is_root (t : Template ListNode BlockNode) :
  extends (rootmost t) = None.
Proof.
  induction t as [t Ht | t parent Ht IH] using extends_ind;
    rewrite rootmost_unfold, Ht; done.
Qed.

Lemma rootmost_on_chain (t : Template ListNode BlockNode) :
  extendsChain t (rootmost t).
Proof.
  induction t as [t Ht | t parent Ht IH] using extends_ind;
    rewrite rootmost_unfold, Ht.
  - apply chain_here.
  - by apply (chain_up _ parent).
Qed.

(** The end of the chain is unique: a parentless template reached along
    [extends] links is the rootmost one. *)
Lemma chain_end_unique (t t' : Template ListNode BlockNode) :
  extendsChain t t' → extends t' = None → t' = rootmost t.
Proof.
  induction 1 as [t | t parent t' Ht _ IH]; intros Hend.
  - by rewrite rootmost_unfold, Hend.
  - rewrite (rootmost_unfold t), Ht. by apply IH.
Qed.

Section Execution.

Variable executeList : Runtime BlockNode → ListNode → Outcome BlockNode.

Lemma ExecuteI18N_unfold (t : Template ListNode BlockNode) tr w vars data pool :
  ExecuteI18N executeList t tr w vars data pool
  = Runtime_recover
      (executeList (fst (ExecuteI18N_bind (fst (pool_State_Get pool)) t tr w vars data))
                   (Root (rootmost t)))
      None (snd (pool_State_Get pool)).
Proof.
  unfold ExecuteI18N. destruct (pool_State_Get pool) as [st rest].
  reflexivity.
Qed.

(** C2: [ExecuteI18N] on a template [t] hands the evaluator a runtime whose
    block table is [t]'s own processed-blocks table, and the node tree of the
    template at the end of [t]'s chain of [extends] links, the one ancestor
    whose [extends] is nil. *)
Theorem C2_ExecuteI18N_blocks_and_root
    (t : Template ListNode BlockNode) (tr : option Translator) (w : io_Writer)
    (vars : VarMap) (data : any) (pool : list (Runtime BlockNode)) :
  let st := fst (ExecuteI18N_bind (fst (pool_State_Get pool)) t tr w vars data) in
  ExecuteI18N executeList t tr w vars data pool
  = Runtime_recover (executeList st (Root (rootmost t))) None (snd (pool_State_Get pool))
  ∧ blocks st = processedBlocks t
  ∧ extendsChain t (rootmost t)
  ∧ extends (rootmost t) = None
  ∧ (∀ t', extendsChain t t' → extends t' = None → t' = rootmost t).
Proof.
  cbv zeta. split; [apply ExecuteI18N_unfold |].
  split; [| split; [apply rootmost_on_chain | split; [apply rootmost_is_root |]]].
  - unfold ExecuteI18N_bind. by destruct (isNil data).
  - intros t'. apply chain_end_unique.
Qed.

(** C3: a call of [Execute] or [ExecuteI18N] always returns to its caller,
    whatever the evaluator does: when the evaluator raises a fault the call
    returns the fault as a non-nil error, and when it finishes the call
    returns a nil error.  No fault unwinds past the call. *)
Theorem C3_fault_becomes_error
    (t : Template ListNode BlockNode) (tr : option Translator) (w : io_Writer)
    (vars : VarMap) (data : any) (pool : list (Runtime BlockNode)) :
  let st := fst (ExecuteI18N_bind (fst (pool_State_Get pool)) t tr w vars data) in
  let st_plain := fst (ExecuteI18N_bind (fst (pool_State_Get pool)) t None w vars data) in
  (∃ err pool',
      ExecuteI18N executeList t tr w vars data pool = (Returns err, pool')
      ∧ match executeList st (Root (rootmost t)) with
        | Panicked _ fault => err = Some (ExecutionFault fault)
        | Finished _ => err = None
        end)
  ∧ (∃ err pool',
      Execute executeList t w vars data pool = (Returns err, pool')
      ∧ match executeList st_plain (Root (rootmost t)) with
        | Panicked _ fault => err = Some (ExecutionFault fault)
        | Finished _ => err = None
        end).
Proof.
  cbv zeta. unfold Execute. split; rewrite ExecuteI18N_unfold;
    destruct (executeList _ _) as [st' | st' fault]; simpl; eauto.
Qed.


End Execution.

(** ** Lookup *)

Section Lookup.

Variable os : filepath.GOOS.

Variable parse :
  Set_ ListNode BlockNode L → string → string → bool → World →
  (option (Template ListNode BlockNode) * option error)
  * gmap string (option (Template ListNode BlockNode)) * World.

Implicit Types (s : Set_ ListNode BlockNode L) (w : World)
  (m : gmap string (option (Template ListNode BlockNode)))
  (t : option (Template ListNode BlockNode)).

Lemma logCalls_cons c cs w : logCalls (c :: cs) w = logCalls cs (logCall c w).
Proof. reflexivity. Qed.

Lemma logCalls_app cs cs' w : logCalls (cs ++ cs') w = logCalls cs' (logCalls cs w).
Proof. unfold logCalls. by rewrite fold_left_app. Qed.

Lemma withTemplates_same s : withTemplates (templates s) s = s.
Proof. by destruct s. Qed.

Lemma withTemplates_again m m' s :
  withTemplates m (withTemplates m' s) = withTemplates m s.
Proof. reflexivity. Qed.

(** A lookup through the loader writes no field of the Set but the
    cache. *)
Lemma loadFromFile_fields s p c w :
  snd (fst (loadFromFile parse s p c w))
  = withTemplates (templates (snd (fst (loadFromFile parse s p c w)))) s.
Proof.
  unfold loadFromFile.
  destruct (Open (loader s) p) as [f | e]; simpl; [| by rewrite withTemplates_same].
  destruct (ioutil.ReadAll f) as [content | e]; simpl; [| by rewrite withTemplates_same].
  by destruct (parse s p content c _) as [[r m] w'].
Qed.

Lemma loaderProbe_fields s p c exts w :
  snd (fst (loaderProbe parse s p c exts w))
  = withTemplates (templates (snd (fst (loaderProbe parse s p c exts w)))) s.
Proof.
  revert w. induction exts as [| e exts IH]; intros w; simpl.
  - by rewrite withTemplates_same.
  - destruct (snd (Exists (loader s) (p +:+ e))); [apply loadFromFile_fields | apply IH].
Qed.

(** The loader probe stops at the first candidate the loader reports as
    existing and loads that one. *)
Lemma loaderProbe_first s p c pre e post w :
  (∀ e', e' ∈ pre → snd (Exists (loader s) (p +:+ e')) = false) →
  snd (Exists (loader s) (p +:+ e)) = true →
  loaderProbe parse s p c (pre ++ e :: post) w
  = loadFromFile parse s (p +:+ e) c (logCalls (probes p (pre ++ [e])) w).
Proof.
  intros Hpre He. revert w.
  induction pre as [| e0 pre IH]; intros w; simpl.
  - by rewrite He.
  - rewrite (Hpre e0) by apply list_elem_of_here.
    rewrite IH by (intros; by apply Hpre, list_elem_of_further). done.
Qed.

(** With no candidate in the loader, the probe asks about each one and
    fails, naming the path it was given. *)
Lemma loaderProbe_none s p c exts w :
  (∀ e, e ∈ exts → snd (Exists (loader s) (p +:+ e)) = false) →
  loaderProbe parse s p c exts w
  = ((None, Some (fmt.Errorf "template " p " could not be found")), s,
     logCalls (probes p exts) w).
Proof.
  revert w. induction exts as [| e exts IH]; intros w Hnone; simpl; [done |].
  rewrite (Hnone e) by apply list_elem_of_here.
  rewrite IH by (intros; by apply Hnone, list_elem_of_further). done.
Qed.

Lemma cacheProbe_miss m p exts :
  (∀ e, e ∈ exts → m !! (p +:+ e) = None) → cacheProbe m p exts = (None, false).
Proof.
  induction exts as [| e exts IH]; intros Hnone; simpl; [done |].
  rewrite (Hnone e) by apply list_elem_of_here.
  apply IH. intros; by apply Hnone, list_elem_of_further.
Qed.

Lemma cacheProbe_found m p exts :
  snd (cacheProbe m p exts) = true →
  ∃ e, e ∈ exts ∧ m !! (p +:+ e) = Some (fst (cacheProbe m p exts)).
Proof.
  induction exts as [| e exts IH]; simpl; [done |].
  destruct (m !! (p +:+ e)) as [t |] eqn:E; simpl.
  - intros _. exists e. split; [apply list_elem_of_here | done].
  - intros Hf. destruct (IH Hf) as (e' & Hin & Hl). exists e'.
    split; [by apply list_elem_of_further | done].
Qed.

(** With the unqualified candidate first, the cache probe of a path that
    has an entry returns that entry. *)
Lemma cacheProbe_unqualified_first m p rest t :
  m !! p = Some t → cacheProbe m p ("" :: rest) = (t, true).
Proof. intros Hm. simpl. by rewrite append_empty_r, Hm. Qed.

(** [getTemplate] outside development mode, when the cache probe misses. *)
Lemma getTemplate_miss s p c w :
  developmentMode s = false →
  snd (getTemplateFromCache s p) = false →
  getTemplate parse s p c w
  = let '((t, err), s1, w1) := getTemplateFromLoader parse s p c w in
    if bool_decide (err = None) && c
    then ((t, err), withTemplates (<[p := t]> (templates s1)) s1, w1)
    else ((t, err), s1, w1).
Proof.
  intros Hdev Hmiss. unfold getTemplate. rewrite Hdev. simpl.
  destruct (getTemplateFromCache s p) as [t0 found]. simpl in Hmiss. subst found.
  pose proof (loaderProbe_fields s p c (extensions s) w) as Hf.
  unfold getTemplateFromLoader.
  destruct (loaderProbe parse s p c (extensions s) w) as [[[t err] s1] w1].
  simpl in Hf. rewrite Hf. simpl. rewrite Hdev. simpl.
  by rewrite andb_true_r.
Qed.

(** [getTemplate] in development mode goes to the loader and stores
    nothing. *)
Lemma getTemplate_development s p c w :
  developmentMode s = true →
  getTemplate parse s p c w = getTemplateFromLoader parse s p c w.
Proof.
  intros Hdev. unfold getTemplate. rewrite Hdev. simpl.
  pose proof (loaderProbe_fields s p c (extensions s) w) as Hf.
  unfold getTemplateFromLoader.
  destruct (loaderProbe parse s p c (extensions s) w) as [[[t err] s1] w1].
  simpl in Hf. rewrite Hf. simpl. rewrite Hdev. simpl.
  by rewrite andb_false_r.
Qed.

(** [getTemplate] outside development mode, when the cache probe hits:
    nothing but the cache is consulted. *)
Lemma getTemplate_hit s p c w t :
  developmentMode s = false →
  getTemplateFromCache s p = (t, true) →
  getTemplate parse s p c w = ((t, None), s, w).
Proof. intros Hdev Hhit. unfold getTemplate. by rewrite Hdev, Hhit. Qed.

(** C4, as the code has it: the loader probe loads the first candidate, in
    the configured order of extensions, that the loader reports as existing.
    Under the default extension list a path [p] that exists in the loader is
    itself the one opened, read and parsed, under the name [p], whether or
    not [p + ".jet"] exists too; a lookup that reaches the loader, in
    development mode or with no candidate of [p] in the cache, returns what
    that load returns. *)
Theorem C4_first_existing_candidate_is_loaded s p c w :
  (∀ pre e post,
      extensions s = (pre ++ e :: post)%list →
      (∀ e', e' ∈ pre → snd (Exists (loader s) (p +:+ e')) = false) →
      snd (Exists (loader s) (p +:+ e)) = true →
      getTemplateFromLoader parse s p c w
      = loadFromFile parse s (p +:+ e) c (logCalls (probes p (pre ++ [e])) w))
  ∧ (extensions s = defaultExtensions →
     snd (Exists (loader s) p) = true →
     getTemplateFromLoader parse s p c w
     = loadFromFile parse s p c (logCall (CallExists p) w)
     ∧ (developmentMode s = true ∨ snd (getTemplateFromCache s p) = false →
        fst (fst (getTemplate parse s p c w))
        = fst (fst (loadFromFile parse s p c (logCall (CallExists p) w))))
     ∧ (∀ f content,
          Open (loader s) p = inl f → ioutil.ReadAll f = inl content →
          fst (fst (getTemplateFromLoader parse s p c w))
          = fst (fst (parse s p content c
                        (logCall (CallOpen p) (logCall (CallExists p) w)))))).
Proof.
  split.
  - intros pre e post Hexts Hpre He. unfold getTemplateFromLoader.
    rewrite Hexts. by apply loaderProbe_first.
  - intros Hexts Hp.
    assert (getTemplateFromLoader parse s p c w
            = loadFromFile parse s p c (logCall (CallExists p) w)) as Hload.
    { unfold getTemplateFromLoader. rewrite Hexts. simpl.
      by rewrite append_empty_r, Hp. }
    split; [exact Hload |]. split.
    + intros [Hdev | Hmiss].
      * by rewrite getTemplate_development, Hload.
      * destruct (developmentMode s) eqn:Hdev.
        { by rewrite getTemplate_development, Hload. }
        rewrite getTemplate_miss, Hload by done.
        destruct (loadFromFile parse s p c _) as [[[t err] s1] w1].
        by destruct (bool_decide (err = None) && c).
    + intros f content Hopen Hread. rewrite Hload. unfold loadFromFile.
      rewrite Hopen, Hread.
      by destruct (parse s p content c _) as [[r m] w1].
Qed.

(** C1, as the code has it: outside development mode, when a lookup that
    caches on success misses the cache and loads the template through the
    loader from the canonical path [p + e], the template is stored in the
    cache under the logical path [p] that was looked up.  No entry is made
    under [p + e]: every path other than [p] maps to what the load left
    there.  A later cache probe for [p] returns the template when the
    unqualified candidate is the first extension. *)
Theorem C1_template_cached_under_logical_path s p w pre e post t s1 w1 :
  developmentMode s = false →
  snd (getTemplateFromCache s p) = false →
  extensions s = (pre ++ e :: post)%list →
  (∀ e', e' ∈ pre → snd (Exists (loader s) (p +:+ e')) = false) →
  snd (Exists (loader s) (p +:+ e)) = true →
  loadFromFile parse s (p +:+ e) true (logCalls (probes p (pre ++ [e])) w)
  = ((t, None), s1, w1) →
  let s' := withTemplates (<[p := t]> (templates s1)) s1 in
  getTemplate parse s p true w = ((t, None), s', w1)
  ∧ templates s' !! p = Some t
  ∧ (∀ q, q ≠ p → templates s' !! q = templates s1 !! q)
  ∧ (∀ rest, extensions s = "" :: rest → getTemplateFromCache s' p = (t, true)).
Proof.
  intros Hdev Hmiss Hexts Hpre He Hload s'.
  assert (getTemplateFromLoader parse s p true w = ((t, None), s1, w1)) as Hfrom.
  { unfold getTemplateFromLoader. rewrite Hexts.
    by rewrite loaderProbe_first. }
  split; [by rewrite getTemplate_miss, Hfrom |].
  split; [apply lookup_insert_eq |].
  split; [intros q Hq; by apply lookup_insert_ne |].
  intros rest Hrest. unfold getTemplateFromCache.
  pose proof (loadFromFile_fields s (p +:+ e) true
                (logCalls (probes p (pre ++ [e])) w)) as Hf.
  rewrite Hload in Hf. simpl in Hf.
  replace (extensions s') with (extensions s) by (subst s'; by rewrite Hf).
  rewrite Hrest. apply cacheProbe_unqualified_first. apply lookup_insert_eq.
Qed.


(** C6: sibling-relative resolution looks up a path that is not absolute
    joined against the directory of the sibling path, and an absolute path as
    it is.  ["../base"] beside [/a/b/child] is looked up as [/a/base]; joined
    against the sibling path itself it would have been [/a/b/base]. *)
Theorem C6_sibling_relative_resolution s p sib c w :
  let p' := filepath.ToSlash os p in
  let sib' := filepath.ToSlash os sib in
  getSiblingTemplate os parse s p sib c w
  = getTemplate parse s
      (if path.IsAbs p' then p' else path.Join [path.Dir sib'; p']) c w
  ∧ getSiblingTemplate os parse s "../base" "/a/b/child" c w
    = getTemplate parse s "/a/base" c w
  ∧ path.Dir "/a/b/child" = "/a/b"
  ∧ path.Join ["/a/b/child"; "../base"] = "/a/b/base"
  ∧ getSiblingTemplate os parse s "/x/y" sib c w = getTemplate parse s "/x/y" c w.
Proof.
  cbv zeta. split.
  { unfold getSiblingTemplate. by destruct (path.IsAbs _). }
  split; [by destruct os |].
  split; [reflexivity |]. split; [reflexivity |].
  by destruct os.
Qed.


(** C8, as the code has it: when no extension candidate of the looked-up
    path exists in the loader, nor in the cache unless development mode is
    on, the lookup returns no template and the error "template ... could not
    be found" naming the path that was looked up: the caller's path after
    sibling-relative resolution and before any extension is added.  The Set
    is unchanged and the loader was asked once about each candidate. *)
Theorem C8_not_found_names_looked_up_path s p sib c w :
  let p' := filepath.ToSlash os p in
  let sib' := filepath.ToSlash os sib in
  let looked := if path.IsAbs p' then p' else path.Join [path.Dir sib'; p'] in
  (∀ e, e ∈ extensions s → snd (Exists (loader s) (looked +:+ e)) = false) →
  (developmentMode s = true
   ∨ ∀ e, e ∈ extensions s → templates s !! (looked +:+ e) = None) →
  getSiblingTemplate os parse s p sib c w
  = ((None, Some (fmt.Errorf "template " looked " could not be found")), s,
     logCalls (probes looked (extensions s)) w).
Proof.
  intros p' sib' looked Hloader Hcache.
  assert (getSiblingTemplate os parse s p sib c w = getTemplate parse s looked c w)
    as ->.
  { unfold getSiblingTemplate, looked, p', sib'. by destruct (path.IsAbs _). }
  assert (getTemplateFromLoader parse s looked c w
          = ((None, Some (fmt.Errorf "template " looked " could not be found")), s,
             logCalls (probes looked (extensions s)) w)) as Hfrom.
  { by apply loaderProbe_none. }
  destruct (developmentMode s) eqn:Hdev.
  - by rewrite getTemplate_development, Hfrom.
  - destruct Hcache as [? | Hcache]; [done |].
    rewrite getTemplate_miss, Hfrom; [done | done |].
    unfold getTemplateFromCache. by rewrite cacheProbe_miss.
Qed.

End Lookup.

End Properties.

(** ** Worked examples on concrete Sets *)

(** C1, against the specification's wording (stored under the canonical
    path): [GetTemplate("/foo")] on a new Set over
    the one file [/foo.jet] loads the template from the canonical path
    [/foo.jet], and afterwards the cache has no entry under [/foo.jet], so a
    cache probe for [/foo.jet] misses; the template sits under [/foo]. *)
Lemma C1_counterexample_no_entry_under_canonical_path :
  let r := GetTemplate filepath.unix parsePlain fooJetSet "/foo" world0 in
  let s' := snd (fst r) in
  fst (fst r) = (Some (fooJetTemplate 0), None)
  ∧ loaderCalls (snd r)
    = [CallExists "/foo"; CallExists "/foo.jet"; CallOpen "/foo.jet"]
  ∧ templates s' !! "/foo.jet" = None
  ∧ getTemplateFromCache s' "/foo.jet" = (None, false)
  ∧ templates s' !! "/foo" = Some (Some (fooJetTemplate 0)).
Proof. cbv zeta. repeat split; vm_compute; reflexivity. Qed.

(** C1 on the Set over [/foo.jet]: the candidate [""] is not in the
    loader, [".jet"] is. *)
Lemma C1_witness_foo_jet :
  let w1 := {| loaderCalls := [CallExists "/foo"; CallExists "/foo.jet";
                               CallOpen "/foo.jet"];
               allocated := 1 |} in
  let s' := withTemplates (<["/foo" := Some (fooJetTemplate 0)]> (templates fooJetSet))
              fooJetSet in
  getTemplate parsePlain fooJetSet "/foo" true world0
  = ((Some (fooJetTemplate 0), None), s', w1)
  ∧ templates s' !! "/foo" = Some (Some (fooJetTemplate 0))
  ∧ (∀ q, q ≠ "/foo" → templates s' !! q = templates fooJetSet !! q)
  ∧ (∀ rest, extensions fooJetSet = "" :: rest →
             getTemplateFromCache s' "/foo" = (Some (fooJetTemplate 0), true)).
Proof.
  apply (C1_template_cached_under_logical_path parsePlain fooJetSet "/foo" world0
           [""] ".jet" [".html.jet"; ".jet.html"]).
  - reflexivity.
  - vm_compute; reflexivity.
  - reflexivity.
  - intros e' He'. apply list_elem_of_singleton in He'. subst e'.
    vm_compute; reflexivity.
  - vm_compute; reflexivity.
  - vm_compute; reflexivity.
Defined.

(** C4 on a loader holding both [/foo] and [/foo.jet]: the lookup of [/foo]
    asks the loader about [/foo] only, opens it and returns the template
    parsed from its content. *)
Lemma C4_witness_foo_and_foo_jet :
  snd (Exists fooBothLoader "/foo") = true
  ∧ snd (Exists fooBothLoader "/foo.jet") = true
  ∧ getTemplateFromLoader parsePlain fooBothSet "/foo" true world0
    = loadFromFile parsePlain fooBothSet "/foo" true (logCall (CallExists "/foo") world0)
  ∧ fst (fst (getTemplateFromLoader parsePlain fooBothSet "/foo" true world0))
    = (Some {| addr := 0; ParseName := "/foo"; extends := None; imports := [];
               processedBlocks := ∅; Root := ["plain"]; set := Some 0 |}, None).
Proof.
  split; [vm_compute; reflexivity |]. split; [vm_compute; reflexivity |].
  destruct (C4_first_existing_candidate_is_loaded parsePlain fooBothSet "/foo" true world0)
    as [_ Hdefault].
  destruct Hdefault as (Hload & _ & Hparse); [reflexivity | vm_compute; reflexivity |].
  split; [exact Hload |].
  rewrite (Hparse (readerOf "plain") "plain"); vm_compute; reflexivity.
Defined.

(** C4, against the specification's wording (resolution never returns the
    [.jet] template): on a new Set over [/foo] and [/foo.jet],
    [GetTemplate("/foo.jet")] caches the [.jet] template, and a following
    [GetTemplate("/foo")] is answered from the cache with that template,
    without a loader call, although the loader holds [/foo]. *)
Lemma C4_counterexample_cached_jet_template_wins :
  let r1 := GetTemplate filepath.unix parsePlain fooBothSet "/foo.jet" world0 in
  let r2 := GetTemplate filepath.unix parsePlain (snd (fst r1)) "/foo" (snd r1) in
  extensions fooBothSet = defaultExtensions
  ∧ snd (Exists (loader fooBothSet) "/foo") = true
  ∧ snd (Exists (loader fooBothSet) "/foo.jet") = true
  ∧ fst (fst r2)
    = (Some {| addr := 0; ParseName := "/foo.jet"; extends := None; imports := [];
               processedBlocks := ∅; Root := ["jet"]; set := Some 0 |}, None)
  ∧ loaderCalls (snd r2) = [CallExists "/foo.jet"; CallOpen "/foo.jet"].
Proof. cbv zeta. repeat split; vm_compute; reflexivity. Qed.



(** C8, against the specification's wording (the error names the path
    the caller supplied): the lookup of ["../base"] beside
    [/a/b/child] on a Set with nothing in cache or loader fails with an
    error that names [/a/base], the path after sibling-relative resolution;
    the path the caller supplied does not occur in the message.  Likewise
    [GetTemplate("foo")] names [/foo]. *)
Lemma C8_counterexample_error_names_resolved_path :
  fst (getSiblingTemplate filepath.unix parsePlain emptySet "../base" "/a/b/child"
         true world0)
  = ((None, Some (errorString "template /a/base could not be found")), emptySet)
  ∧ String.index 0 "../base" "template /a/base could not be found" = None
  ∧ fst (fst (GetTemplate filepath.unix parsePlain emptySet "foo" world0))
    = (None, Some (errorString "template /foo could not be found"))
  ∧ errorString "template /foo could not be found"
    ≠ fmt.Errorf "template " "foo" " could not be found".
Proof. repeat split; try (vm_compute; reflexivity). discriminate. Qed.

(** C8 on a Set with nothing in cache or loader. *)
Lemma C8_witness_empty_loader :
  getSiblingTemplate filepath.unix parsePlain emptySet "../base" "/a/b/child" true world0
  = ((None, Some (fmt.Errorf "template " "/a/base" " could not be found")), emptySet,
     logCalls (probes "/a/base" (extensions emptySet)) world0).
Proof.
  apply (C8_not_found_names_looked_up_path filepath.unix parsePlain emptySet
           "../base" "/a/b/child" true world0).
  - intros e _. reflexivity.
  - right. intros e _. reflexivity.
Defined.


(** Executing the child runs the tree of the base template under the
    child's blocks. *)
Example Execute_child_runs_base_tree :
  Execute writeNodes childTemplate stdout ∅ anyNil []
  = (Returns None,
     [ {| blocks := {[ "content" := "B" ]}; translator := None; variables := ∅;
          Runtime_set := Some 0;
          Writer := Some {| sink := 1; written := "base body" |};
          context := zeroValue |} ]).
Proof. reflexivity. Qed.

(** A fault of the evaluator comes back as an error. *)
Example Execute_fault_is_returned :
  fst (Execute writeNodes
         {| addr := 2; ParseName := "/empty.jet"; extends := None; imports := [];
            processedBlocks := ∅; Root := []; set := Some 0 |}
         stdout ∅ anyNil [])
  = Returns (Some (ExecutionFault (anyString "empty tree"))).
Proof. reflexivity. Qed.


(** In-memory loader: content registered at a relative path is found at
    the absolute one. *)
Example InMemLoader_Set_normalizes :
  Exists (InMemLoader_Set filepath.unix "rel/path" "x" NewInMemLoader) "/rel/path"
  = ("/rel/path", true).
Proof. vm_compute; reflexivity. Qed.

(** * Further properties of the package *)

(** ** Paths handed to the lookup and to the parser *)

Lemma IsAbs_append (e x : string) : path.IsAbs e = true → path.IsAbs (e +:+ x) = true.
Proof. by destruct e. Qed.

Lemma IsAbs_nonempty (e : string) : path.IsAbs e = true → String.eqb e "" = false.
Proof. by destruct e. Qed.

Lemma IsAbs_Clean (p : string) : path.IsAbs p = true → path.IsAbs (path.Clean p) = true.
Proof.
  intros Hp. unfold path.Clean. by rewrite (IsAbs_nonempty p Hp), Hp.
Qed.

Lemma IsAbs_joinSlash (e : string) (rest : list string) :
  path.IsAbs e = true → path.IsAbs (joinSlash (e :: rest)) = true.
Proof. intros He. destruct rest; [done | by apply IsAbs_append]. Qed.

Lemma IsAbs_Join (e : string) (rest : list string) :
  path.IsAbs e = true → path.IsAbs (path.Join (e :: rest)) = true.
Proof.
  intros He. unfold path.Join. simpl. rewrite (IsAbs_nonempty e He).
  by apply IsAbs_Clean, IsAbs_joinSlash.
Qed.

Lemma IsAbs_splitLast (p : string) :
  path.IsAbs p = true → path.IsAbs (fst (splitLast p)) = true.
Proof.
  destruct p as [| c rest]; [done |]. simpl. intros Hc.
  destruct (splitLast rest) as [d f]. rewrite Hc.
  by destruct (String.eqb d "").
Qed.

Lemma IsAbs_Dir (p : string) : path.IsAbs p = true → path.IsAbs (path.Dir p) = true.
Proof. intros Hp. by apply IsAbs_Clean, IsAbs_splitLast. Qed.

Lemma ToSlash_root (os : filepath.GOOS) : filepath.ToSlash os "/" = "/".
Proof. by destruct os. Qed.

Section MoreLookup.

Context {ListNode BlockNode L : Type} `{Loader L}.

Variable os : filepath.GOOS.

Variable parse :
  Set_ ListNode BlockNode L → string → string → bool → World →
  (option (Template ListNode BlockNode) * option error)
  * gmap string (option (Template ListNode BlockNode)) * World.

Implicit Types (s : Set_ ListNode BlockNode L) (w : World).

(** The path sibling-relative resolution looks up. *)
Lemma getSiblingTemplate_looked_up s p sib c w :
  getSiblingTemplate os parse s p sib c w
  = getTemplate parse s
      (if path.IsAbs (filepath.ToSlash os p) then filepath.ToSlash os p
       else path.Join [path.Dir (filepath.ToSlash os sib); filepath.ToSlash os p]) c w.
Proof. unfold getSiblingTemplate. by destruct (path.IsAbs _). Qed.

(** Every path [GetTemplate] looks up is absolute, whatever path the caller
    gives, and so is every path looked up beside an absolute sibling path: a
    relative path never reaches the cache probe, the loader or the cache as a
    key. *)
Theorem lookup_paths_are_absolute s p sib c w :
  (∃ q, path.IsAbs q = true
        ∧ GetTemplate os parse s p w = getTemplate parse s q true w)
  ∧ (path.IsAbs (filepath.ToSlash os sib) = true →
     ∃ q, path.IsAbs q = true
          ∧ getSiblingTemplate os parse s p sib c w = getTemplate parse s q c w).
Proof.
  assert (∀ sib' c', path.IsAbs (filepath.ToSlash os sib') = true →
     ∃ q, path.IsAbs q = true
          ∧ getSiblingTemplate os parse s p sib' c' w = getTemplate parse s q c' w)
    as Hsib.
  { intros sib' c' Hsib'. eexists. split; [| apply getSiblingTemplate_looked_up].
    destruct (path.IsAbs (filepath.ToSlash os p)) eqn:Hp; [done |].
    by apply IsAbs_Join, IsAbs_Dir. }
  split; [| apply Hsib].
  apply Hsib. by rewrite ToSlash_root.
Qed.

(** A path [Parse] accepts reaches the parser as an absolute path, with
    [cacheAfterParsing] false, and the template the parser returns is not
    entered into the cache: the cache afterwards is the one the parser left. *)
Theorem Parse_hands_parser_absolute_name s p contents w :
  path.Base (filepath.ToSlash os p) ≠ "." →
  path.Base (filepath.ToSlash os p) ≠ "/" →
  let name := path.Join ["/"; filepath.ToSlash os p] in
  let r := parse s name contents false w in
  path.IsAbs name = true
  ∧ Parse os parse s p contents w = (fst (fst r), withTemplates (snd (fst r)) s, snd r)
  ∧ templates (snd (fst (Parse os parse s p contents w))) = snd (fst r).
Proof.
  intros Hdot Hroot name r.
  assert (Parse os parse s p contents w
          = (fst (fst r), withTemplates (snd (fst r)) s, snd r)) as HP.
  { unfold Parse.
    destruct (String.eqb_spec (path.Base (filepath.ToSlash os p)) "."); [done |].
    destruct (String.eqb_spec (path.Base (filepath.ToSlash os p)) "/"); [done |].
    simpl. subst r name. by destruct (parse s _ contents false w) as [[? ?] ?]. }
  split; [by apply IsAbs_Join |]. split; [exact HP |]. by rewrite HP.
Qed.

Lemma getTemplate_fields s p c w :
  snd (fst (getTemplate parse s p c w))
  = withTemplates (templates (snd (fst (getTemplate parse s p c w)))) s.
Proof.
  unfold getTemplate.
  destruct (if negb (developmentMode s) then getTemplateFromCache s p else (None, false))
    as [t0 [|]]; simpl; [by rewrite withTemplates_same |].
  pose proof (loaderProbe_fields parse s p c (extensions s) w) as Hf.
  unfold getTemplateFromLoader.
  destruct (loaderProbe parse s p c (extensions s) w) as [[[t err] s1] w1].
  simpl in Hf.
  destruct (bool_decide (err = None) && c && negb (developmentMode s1)); simpl;
    [by rewrite Hf | exact Hf].
Qed.

(** A lookup and an explicit parse write no field of the Set but the
    template cache: the loader, the globals, the extension list, the
    development mode and the delimiters are as before. *)
Theorem lookup_and_Parse_keep_configuration s p sib c contents w :
  let s1 := snd (fst (getSiblingTemplate os parse s p sib c w)) in
  let s2 := snd (fst (Parse os parse s p contents w)) in
  (loader s1 = loader s ∧ globals s1 = globals s ∧ extensions s1 = extensions s
   ∧ developmentMode s1 = developmentMode s
   ∧ leftDelim s1 = leftDelim s ∧ rightDelim s1 = rightDelim s)
  ∧ (loader s2 = loader s ∧ globals s2 = globals s ∧ extensions s2 = extensions s
     ∧ developmentMode s2 = developmentMode s
     ∧ leftDelim s2 = leftDelim s ∧ rightDelim s2 = rightDelim s).
Proof.
  intros s1 s2.
  assert (s1 = withTemplates (templates s1) s) as ->.
  { subst s1. rewrite getSiblingTemplate_looked_up. apply getTemplate_fields. }
  assert (s2 = withTemplates (templates s2) s) as ->; [| done].
  subst s2. unfold Parse.
  destruct (String.eqb _ "." || String.eqb _ "/"); simpl;
    [by rewrite withTemplates_same |].
  by destruct (parse s _ contents false w) as [[? ?] ?].
Qed.

(** With an empty extension list every lookup fails as not found, without
    a call to the loader and without a look at the cache, whatever the two
    hold. *)
Theorem empty_extension_list_finds_nothing s p c w :
  extensions s = [] →
  getTemplate parse s p c w
  = ((None, Some (fmt.Errorf "template " p " could not be found")), s, w).
Proof.
  intros Hexts. unfold getTemplate, getTemplateFromCache, getTemplateFromLoader.
  rewrite Hexts. simpl. destruct (negb (developmentMode s)); simpl;
    by rewrite ?andb_false_r, ?andb_false_l.
Qed.

(** In development mode a lookup never reads the cache and never writes
    it: it is the loader probe, whatever the cache holds, and as the Set stays
    in development mode the next lookup of the path is the loader probe
    again. *)
Theorem development_mode_always_reloads s p c w :
  developmentMode s = true →
  let r := getTemplate parse s p c w in
  r = getTemplateFromLoader parse s p c w
  ∧ getTemplate parse (snd (fst r)) p c (snd r)
    = getTemplateFromLoader parse (snd (fst r)) p c (snd r).
Proof.
  intros Hdev r. split; [by apply getTemplate_development |].
  apply getTemplate_development.
  subst r. rewrite getTemplate_fields. exact Hdev.
Qed.

(** When the loader reports a candidate as existing and then fails to open
    it, or the reader fails, the lookup returns that error as it is and no
    template: the parser is not called, the later candidates are not tried,
    and the Set, its cache included, is unchanged. *)
Theorem load_error_is_returned_as_is s p c w pre e post err :
  extensions s = (pre ++ e :: post)%list →
  (∀ e', e' ∈ pre → snd (Exists (loader s) (p +:+ e')) = false) →
  snd (Exists (loader s) (p +:+ e)) = true →
  Open (loader s) (p +:+ e) = inr err
  ∨ (∃ f, Open (loader s) (p +:+ e) = inl f ∧ ioutil.ReadAll f = inr err) →
  developmentMode s = true ∨ snd (getTemplateFromCache s p) = false →
  getTemplate parse s p c w
  = ((None, Some err), s,
     logCall (CallOpen (p +:+ e)) (logCalls (probes p (pre ++ [e])) w)).
Proof.
  intros Hexts Hpre He Hfail Hreach.
  assert (getTemplateFromLoader parse s p c w
          = ((None, Some err), s,
             logCall (CallOpen (p +:+ e)) (logCalls (probes p (pre ++ [e])) w)))
    as Hfrom.
  { unfold getTemplateFromLoader. rewrite Hexts, loaderProbe_first by done.
    unfold loadFromFile.
    destruct Hfail as [-> | (f & -> & ->)]; done. }
  destruct (developmentMode s) eqn:Hdev.
  - by rewrite getTemplate_development, Hfrom.
  - destruct Hreach as [? | Hmiss]; [done |].
    by rewrite getTemplate_miss, Hfrom.
Qed.

(** Outside development mode a lookup that misses the cache and ends in an
    error, or that was made with [cacheAfterParsing] false, adds no entry to
    the cache: the Set is as the loader probe left it. *)
Theorem failed_or_uncached_lookup_stores_nothing s p c w :
  developmentMode s = false →
  snd (getTemplateFromCache s p) = false →
  c = false ∨ snd (fst (fst (getTemplateFromLoader parse s p c w))) ≠ None →
  getTemplate parse s p c w = getTemplateFromLoader parse s p c w.
Proof.
  intros Hdev Hmiss Hno. rewrite getTemplate_miss by done.
  destruct (getTemplateFromLoader parse s p c w) as [[[t err] s1] w1].
  simpl in Hno. destruct Hno as [-> | Herr]; [by rewrite andb_false_r |].
  by rewrite bool_decide_eq_false_2.
Qed.

Lemma cacheProbe_first m p pre e post (t : option (Template ListNode BlockNode)) :
  (∀ e', e' ∈ pre → m !! (p +:+ e') = None) →
  m !! (p +:+ e) = Some t →
  cacheProbe m p (pre ++ e :: post) = (t, true).
Proof.
  intros Hpre He. induction pre as [| e0 pre IH]; simpl.
  - by rewrite He.
  - rewrite (Hpre e0) by apply list_elem_of_here.
    apply IH. intros; by apply Hpre, list_elem_of_further.
Qed.

(** Outside development mode a lookup is answered by the first extension
    candidate, in the configured order, that has an entry in the cache; the
    loader is not called and the Set is not changed. *)
Theorem cached_candidate_answers_without_loader s p c w pre e post t :
  developmentMode s = false →
  extensions s = (pre ++ e :: post)%list →
  (∀ e', e' ∈ pre → templates s !! (p +:+ e') = None) →
  templates s !! (p +:+ e) = Some t →
  getTemplate parse s p c w = ((t, None), s, w).
Proof.
  intros Hdev Hexts Hpre He. apply getTemplate_hit; [done |].
  unfold getTemplateFromCache. rewrite Hexts. by apply cacheProbe_first.
Qed.

End MoreLookup.

(** ** The in-memory loader *)

(** A file registered by [Set] is found by [Exists] and opened by [Open] at
    the absolute, cleaned form of its path, with the contents registered, and
    every other path of the loader is as before. *)
Theorem InMemLoader_Set_then_Exists_Open
    (os : filepath.GOOS) (p contents : string) (l : InMemLoader) :
  let q := path.Join ["/"; filepath.ToSlash os p] in
  let l' := InMemLoader_Set os p contents l in
  path.IsAbs q = true
  ∧ Exists l' q = (q, true)
  ∧ Open l' q = inl (readerOf contents)
  ∧ (∀ q', q' ≠ q → Exists l' q' = Exists l q' ∧ Open l' q' = Open l q').
Proof.
  intros q l'. split; [by apply IsAbs_Join |].
  unfold Exists, Open; simpl.
  unfold InMemLoader_Exists, InMemLoader_Open, l', InMemLoader_Set; simpl.
  fold q. rewrite lookup_insert_eq. split; [done |]. split; [done |].
  intros q' Hq'. by rewrite lookup_insert_ne.
Qed.

(** [Exists] and [Open] of an in-memory loader agree: a path is reported as
    existing, under its own name, exactly when [Open] returns a reader for
    it; otherwise [Exists] returns the empty name and [Open] the error
    "... does not exist". *)
Theorem InMemLoader_Exists_agrees_with_Open (l : InMemLoader) (p : string) :
  (snd (Exists l p) = true ↔ ∃ content, Open l p = inl (readerOf content))
  ∧ (snd (Exists l p) = false
     ↔ Open l p = inr (errorString (p +:+ " does not exist")))
  ∧ fst (Exists l p) = (if snd (Exists l p) then p else "").
Proof.
  unfold Exists, Open; simpl. unfold InMemLoader_Exists, InMemLoader_Open.
  destruct (files l !! p) as [content |]; simpl.
  - split; [split; eauto |]. split; [split; done |]. done.
  - split; [split; [done | by intros [? ?]] |]. split; [| done].
    split; [| done]. intros _. reflexivity.
Qed.

(** Every key of an in-memory loader built by [Set] calls is an absolute
    path, so such a loader reports no relative path as existing. *)
Theorem InMemLoader_keys_are_absolute (os : filepath.GOOS) (l : InMemLoader) :
  builtBySet os l →
  (∀ k, is_Some (files l !! k) → path.IsAbs k = true)
  ∧ (∀ k, path.IsAbs k = false → Exists l k = ("", false)).
Proof.
  intros Hbuilt.
  assert (∀ k, is_Some (files l !! k) → path.IsAbs k = true) as Hkeys.
  { induction Hbuilt as [| p contents l _ IH]; intros k.
    - simpl. rewrite lookup_empty. by intros [? ?].
    - simpl. destruct (decide (path.Join ["/"; filepath.ToSlash os p] = k)) as [<- | Hne].
      + intros _. by apply IsAbs_Join.
      + rewrite lookup_insert_ne by done. apply IH. }
  split; [exact Hkeys |].
  intros k Hk. unfold Exists; simpl. unfold InMemLoader_Exists.
  destruct (files l !! k) as [c |] eqn:E; [| done].
  rewrite Hkeys in Hk by eauto. done.
Qed.

Section InMemoryLookup.

Context {ListNode BlockNode : Type}.

Variable os : filepath.GOOS.

Variable parse :
  Set_ ListNode BlockNode InMemLoader → string → string → bool → World →
  (option (Template ListNode BlockNode) * option error)
  * gmap string (option (Template ListNode BlockNode)) * World.

Implicit Types (s : Set_ ListNode BlockNode InMemLoader) (w : World).

(** A lookup through an in-memory loader never ends in a load error: the
    source registered for the first registered candidate is handed to the
    parser under that candidate's name, after one [Exists] call per candidate
    tried and one [Open] call. *)
Theorem InMemLoader_lookup_parses_first_registered s p c w pre e post content :
  extensions s = (pre ++ e :: post)%list →
  (∀ e', e' ∈ pre → files (loader s) !! (p +:+ e') = None) →
  files (loader s) !! (p +:+ e) = Some content →
  let r := parse s (p +:+ e) content c
             (logCall (CallOpen (p +:+ e)) (logCalls (probes p (pre ++ [e])) w)) in
  getTemplateFromLoader parse s p c w
  = (fst (fst r), withTemplates (snd (fst r)) s, snd r).
Proof.
  intros Hexts Hpre He r. unfold getTemplateFromLoader. rewrite Hexts.
  rewrite loaderProbe_first.
  - unfold loadFromFile, Open; simpl. unfold InMemLoader_Open. rewrite He. simpl.
    subst r. by destruct (parse s _ content c _) as [[? ?] ?].
  - intros e' He'. unfold Exists; simpl. unfold InMemLoader_Exists.
    by rewrite (Hpre e' He').
  - unfold Exists; simpl. unfold InMemLoader_Exists. by rewrite He.
Qed.

(** Registration and lookup meet: after [l.Set(p, contents)] with a path
    [p] that is not absolute, [GetTemplate(p)] on a Set over that loader with
    the unqualified candidate first, in development mode or with no candidate
    of the path cached, returns what the parser makes of [contents] under the
    absolute form of [p]. *)
Theorem GetTemplate_finds_what_Set_registered s p contents w l rest :
  let q := path.Join ["/"; filepath.ToSlash os p] in
  path.IsAbs (filepath.ToSlash os p) = false →
  loader s = InMemLoader_Set os p contents l →
  extensions s = "" :: rest →
  developmentMode s = true ∨ snd (getTemplateFromCache s q) = false →
  fst (fst (GetTemplate os parse s p w))
  = fst (fst (parse s q contents true
                (logCall (CallOpen q) (logCall (CallExists q) w)))).
Proof.
  intros q Hrel Hloader Hexts Hreach.
  assert (GetTemplate os parse s p w = getTemplate parse s q true w) as ->.
  { unfold GetTemplate. rewrite getSiblingTemplate_looked_up, Hrel.
    rewrite ToSlash_root. reflexivity. }
  assert (getTemplateFromLoader parse s q true w
          = (fst (fst (parse s q contents true
                         (logCall (CallOpen q) (logCall (CallExists q) w)))),
             withTemplates
               (snd (fst (parse s q contents true
                            (logCall (CallOpen q) (logCall (CallExists q) w))))) s,
             snd (parse s q contents true
                    (logCall (CallOpen q) (logCall (CallExists q) w))))) as Hfrom.
  { assert (files (loader s) !! q = Some contents) as Hfile.
    { rewrite Hloader. unfold InMemLoader_Set; simpl. fold q.
      apply lookup_insert_eq. }
    unfold getTemplateFromLoader. rewrite Hexts.
    rewrite (loaderProbe_first parse s q true [] "" rest w).
    - simpl. rewrite append_empty_r.
      unfold loadFromFile, Open; simpl. unfold InMemLoader_Open. rewrite Hfile. simpl.
      by destruct (parse s q contents true _) as [[? ?] ?].
    - intros e' He'. by apply elem_of_nil in He'.
    - rewrite append_empty_r. unfold Exists; simpl. unfold InMemLoader_Exists.
      by rewrite Hfile. }
  destruct (developmentMode s) eqn:Hdev.
  - by rewrite getTemplate_development, Hfrom.
  - destruct Hreach as [? | Hmiss]; [done |].
    rewrite getTemplate_miss, Hfrom by done.
    destruct (parse s q contents true _) as [[[t err] m] w1]; simpl.
    by destruct (bool_decide (err = None) && true).
Qed.

End InMemoryLookup.

(** ** The file system loader *)


Section FileSystemLookup.

Context {ListNode BlockNode : Type}.

Variable parse :
  Set_ ListNode BlockNode OSFileSystemLoader → string → string → bool → World →
  (option (Template ListNode BlockNode) * option error)
  * gmap string (option (Template ListNode BlockNode)) * World.

(** A directory named like a candidate does not stop the probe: on a Set
    over a file system loader, when every earlier candidate is missing or a
    directory and the candidate [e] is a regular file, the lookup loads the
    path with [e]. *)
Theorem directory_candidate_is_skipped
    (s : Set_ ListNode BlockNode OSFileSystemLoader) p c w pre e post stat :
  let joined := fun candidate =>
    filepath_Join (host (loader s))
      [dir (loader s);
       filepath_os.FromSlash (goos (host (loader s))) (p +:+ candidate)] in
  extensions s = (pre ++ e :: post)%list →
  (∀ e', e' ∈ pre →
     match os_Stat (host (loader s)) (joined e') with
     | inl stat' => IsDir stat' = true
     | inr _ => True
     end) →
  os_Stat (host (loader s)) (joined e) = inl stat →
  IsDir stat = false →
  getTemplateFromLoader parse s p c w
  = loadFromFile parse s (p +:+ e) c (logCalls (probes p (pre ++ [e])) w).
Proof.
  intros joined Hexts Hpre He Hfile. unfold getTemplateFromLoader. rewrite Hexts.
  apply loaderProbe_first.
  - intros e' He'. specialize (Hpre e' He'). unfold Exists; simpl.
    unfold OSFileSystemLoader_Exists. fold (joined e').
    destruct (os_Stat (host (loader s)) (joined e')) as [stat' | err]; [| done].
    by rewrite Hpre.
  - unfold Exists; simpl. unfold OSFileSystemLoader_Exists. fold (joined e).
    by rewrite He, Hfile.
Qed.

End FileSystemLookup.

(** ** Globals and scopes *)

Section Scopes.

Context {ListNode BlockNode L : Type}.

Implicit Types (s : Set_ ListNode BlockNode L).

(** Registering a global twice under one key keeps the later value;
    registrations under different keys can be made in either order; a
    registration shows under no other key and leaves the template cache, the
    extension list and the development mode alone. *)
Theorem AddGlobal_overwrites_and_commutes s (k k' : string) (v v' : any) :
  AddGlobal k v' (AddGlobal k v s) = AddGlobal k v' s
  ∧ (k ≠ k' → AddGlobal k v (AddGlobal k' v' s) = AddGlobal k' v' (AddGlobal k v s))
  ∧ (k ≠ k' → LookupGlobal (AddGlobal k v s) k' = LookupGlobal s k')
  ∧ templates (AddGlobal k v s) = templates s
  ∧ extensions (AddGlobal k v s) = extensions s
  ∧ developmentMode (AddGlobal k v s) = developmentMode s.
Proof.
  split; [| split; [| split; [| done]]].
  - unfold AddGlobal; simpl. by rewrite insert_insert_eq.
  - intros Hne. unfold AddGlobal; simpl. by rewrite insert_insert_ne.
  - intros Hne. unfold LookupGlobal, AddGlobal; simpl. by rewrite lookup_insert_ne.
Qed.

(** [LookupGlobal] never returns a nil value: for a key that was never
    registered it returns the zero [reflect.Value] and [found = false], and a
    global registered as nil reads as the same zero value with
    [found = true]. *)
Theorem LookupGlobal_of_missing_key s (k : string) (l : L) :
  fst (LookupGlobal s k) ≠ anyNil
  ∧ (snd (LookupGlobal s k) = false ↔ globals s !! k = None)
  ∧ (globals s !! k = None → LookupGlobal s k = (anyValue zeroValue, false))
  ∧ LookupGlobal (AddGlobal k anyNil s) k = (anyValue zeroValue, true)
  ∧ LookupGlobal (NewSetLoader (ListNode := ListNode) (BlockNode := BlockNode) l) k
    = (anyValue zeroValue, false).
Proof.
  unfold LookupGlobal. split; [by destruct (globals s !! k) |].
  split; [by destruct (globals s !! k) |].
  split; [by intros -> |]. split; [| done].
  unfold AddGlobal; simpl. by rewrite lookup_insert_eq.
Qed.

End Scopes.

(** A scope built by [Set], [SetFunc] and [SetWriter] maps a name to the
    box of the value last set under it and leaves the other names alone;
    settings under different names can be made in either order; the three
    methods box alike. *)
Theorem VarMap_Set_last_value_wins (scope : VarMap) (name name' : string)
    (v v' : any) (f : nat) :
  VarMap_Set name v' (VarMap_Set name v scope) !! name = Some (ValueOf v')
  ∧ (name ≠ name' → VarMap_Set name v scope !! name' = scope !! name')
  ∧ (name ≠ name' →
     VarMap_Set name v (VarMap_Set name' v' scope)
     = VarMap_Set name' v' (VarMap_Set name v scope))
  ∧ VarMap_SetFunc name f scope = VarMap_Set name (anyFunc f) scope
  ∧ VarMap_SetWriter name f scope = VarMap_Set name (anyFunc f) scope.
Proof.
  unfold VarMap_Set, VarMap_SetFunc, VarMap_SetWriter.
  split; [by rewrite lookup_insert_eq |].
  split; [intros; by rewrite lookup_insert_ne |].
  split; [intros; by rewrite insert_insert_ne | done].
Qed.

(** ** Blocks *)

Section Blocks.

Context {ListNode BlockNode : Type}.

Implicit Types (t : Template ListNode BlockNode) (b : gmap string BlockNode).

Lemma addBlocks_processedBlocks b t :
  processedBlocks (addBlocks b t) = b ∪ processedBlocks t.
Proof.
  unfold addBlocks. destruct (Nat.eqb_spec (size b) 0) as [Hz | Hnz].
  - apply map_size_empty_inv in Hz as ->. by rewrite (left_id_L ∅ (∪)).
  - simpl.
    apply (map_fold_weak_ind
             (fun r m => r = m ∪ processedBlocks t)
             (fun key value m => <[key := value]> m)).
    + by rewrite (left_id_L ∅ (∪)).
    + intros i x m r _ ->. by rewrite insert_union_l.
Qed.

Lemma addBlocks_other_fields b t :
  addr (addBlocks b t) = addr t ∧ ParseName (addBlocks b t) = ParseName t
  ∧ extends (addBlocks b t) = extends t ∧ imports (addBlocks b t) = imports t
  ∧ Root (addBlocks b t) = Root t ∧ set (addBlocks b t) = set t.
Proof. unfold addBlocks. by destruct (size b =? 0)%nat. Qed.

Lemma Template_eq t t' :
  addr t = addr t' → ParseName t = ParseName t' → extends t = extends t' →
  imports t = imports t' → processedBlocks t = processedBlocks t' →
  Root t = Root t' → set t = set t' → t = t'.
Proof. destruct t, t'; simpl; by intros -> -> -> -> -> -> ->. Qed.

(** After [addBlocks], a block name given in the added table maps to the
    added block, and any other name maps to what it mapped to before; the
    template is otherwise unchanged. *)
Theorem addBlocks_added_block_wins b t (key : string) :
  processedBlocks (addBlocks b t) !! key
  = match b !! key with
    | Some block => Some block
    | None => processedBlocks t !! key
    end
  ∧ addr (addBlocks b t) = addr t ∧ ParseName (addBlocks b t) = ParseName t
  ∧ extends (addBlocks b t) = extends t ∧ imports (addBlocks b t) = imports t
  ∧ Root (addBlocks b t) = Root t ∧ set (addBlocks b t) = set t.
Proof.
  split; [| apply addBlocks_other_fields].
  rewrite addBlocks_processedBlocks, lookup_union.
  destruct (b !! key), (processedBlocks t !! key); done.
Qed.

(** Merging two tables one after the other is merging their union, in
    which the table merged later wins a name both give; merging a table a
    second time, or merging the empty table, changes nothing. *)
Theorem addBlocks_composes b1 b2 t :
  addBlocks b2 (addBlocks b1 t) = addBlocks (b2 ∪ b1) t
  ∧ addBlocks b1 (addBlocks b1 t) = addBlocks b1 t
  ∧ addBlocks ∅ t = t.
Proof.
  assert (∀ b b', addBlocks b' (addBlocks b t) = addBlocks (b' ∪ b) t) as Htwice.
  { intros b b'.
    pose proof (addBlocks_other_fields b t) as (? & ? & ? & ? & ? & ?).
    pose proof (addBlocks_other_fields b' (addBlocks b t)) as (? & ? & ? & ? & ? & ?).
    pose proof (addBlocks_other_fields (b' ∪ b) t) as (? & ? & ? & ? & ? & ?).
    apply Template_eq; try congruence.
    rewrite !addBlocks_processedBlocks. by rewrite (assoc_L (∪)). }
  split; [apply Htwice |]. split; [| done].
  rewrite Htwice. by rewrite (idemp_L (∪)).
Qed.

End Blocks.

(** ** Serialization *)

Lemma append_assoc (a b c : string) : (a +:+ b) +:+ c = a +:+ (b +:+ c).
Proof.
  induction a as [| x a IH]; [done |].
  change (String x ((a +:+ b) +:+ c) = String x (a +:+ (b +:+ c))). by rewrite IH.
Qed.

Lemma joinLines_cons (l : string) (ls : list string) :
  joinLines (l :: ls) = l +:+ foldr (fun x acc => newline +:+ x +:+ acc) "" ls.
Proof.
  revert l. induction ls as [| x ls IH]; intros l.
  - simpl. by rewrite append_empty_r.
  - change (joinLines (l :: x :: ls)) with (l +:+ newline +:+ joinLines (x :: ls)).
    by rewrite IH.
Qed.

Lemma foldr_lines_app (ls ls' : list string) :
  foldr (fun x acc => newline +:+ x +:+ acc) "" (ls ++ ls')
  = foldr (fun x acc => newline +:+ x +:+ acc) "" ls
    +:+ foldr (fun x acc => newline +:+ x +:+ acc) "" ls'.
Proof.
  induction ls as [| x ls IH]; [done |].
  simpl. rewrite IH. by rewrite !append_assoc.
Qed.

Section Serialization.

Context {ListNode BlockNode : Type}.

Variable Nodes_len : ListNode → nat.
Variable ListNode_String : ListNode → string.
Variable Quote : string → string.

Implicit Types (t : Template ListNode BlockNode).

Lemma importsLoop_after_first_line (extendsNil : bool) (k : nat)
    (imports : list (Template ListNode BlockNode)) (acc : string) :
  extendsNil && (k =? 0)%nat = false →
  importsLoop Quote extendsNil k imports acc
  = acc +:+ foldr (fun x acc => newline +:+ x +:+ acc) ""
              (map (fun i => Sprintf_q Quote "{{import " (ParseName i) "}}") imports).
Proof.
  revert k acc. induction imports as [| i imports IH]; intros k acc Hk.
  - simpl. by rewrite append_empty_r.
  - simpl. rewrite Hk. rewrite IH by apply andb_false_r.
    rewrite append_assoc. by f_equal.
Qed.

Lemma lines_with_body (first : string) (others : list string) (body : string) (n : nat) :
  (if (0 <? n)%nat
   then (first +:+ foldr (fun x acc => newline +:+ x +:+ acc) "" others)
        +:+ newline +:+ body
   else first +:+ foldr (fun x acc => newline +:+ x +:+ acc) "" others)
  = joinLines ((first :: others) ++ (if (0 <? n)%nat then [body] else [])).
Proof.
  change ((first :: others) ++ ?x)%list with (first :: (others ++ x))%list.
  rewrite joinLines_cons, foldr_lines_app.
  destruct (0 <? n)%nat; simpl.
  - rewrite append_assoc. by rewrite append_empty_r.
  - by rewrite append_empty_r.
Qed.

(** [String] writes the extends directive, if any, then one import
    directive per import in their order, then the body, each on a line of
    its own with single newlines between them and none before or after.  A
    template with a directive and no node has no body line; a template
    without directives is its body alone. *)
Theorem Template_String_is_its_lines t :
  Template_String Nodes_len ListNode_String Quote t
  = match directiveLines Quote t with
    | [] => ListNode_String (Root t)
    | lines =>
        joinLines (lines ++ (if (0 <? Nodes_len (Root t))%nat
                             then [ListNode_String (Root t)] else []))
    end.
Proof.
  unfold Template_String, directiveLines.
  destruct (extends t) as [parent |] eqn:Hext.
  - rewrite bool_decide_eq_false_2 by done.
    replace (if (0 <? Nodes_len (Root t))%nat && (length (imports t) =? 0)%nat
             then "" +:+ Sprintf_q Quote "{{extends " (ParseName parent) "}}"
             else "" +:+ Sprintf_q Quote "{{extends " (ParseName parent) "}}")
      with (Sprintf_q Quote "{{extends " (ParseName parent) "}}")
      by (by destruct (_ && _)).
    rewrite importsLoop_after_first_line by done.
    simpl. apply lines_with_body.
  - rewrite bool_decide_eq_true_2 by done.
    destruct (imports t) as [| i imports]; [done |].
    simpl. rewrite importsLoop_after_first_line by done.
    apply lines_with_body.
Qed.

End Serialization.

(** ** Templates of one extends chain *)

Section Chains.

Context {ListNode BlockNode : Type}.

Variable executeList : Runtime BlockNode → ListNode → Outcome BlockNode.

(** Executing a template and executing any template further up its chain
    of [extends] links evaluate the same node tree, the one of their common
    rootmost ancestor; what differs is the block table, which is the executed
    template's own. *)
Theorem extends_chain_executes_one_tree
    (t t' : Template ListNode BlockNode) (tr : option Translator) (w : io_Writer)
    (vars : VarMap) (data : any) (pool : list (Runtime BlockNode)) :
  extendsChain t t' →
  let st' := fst (ExecuteI18N_bind (fst (pool_State_Get pool)) t' tr w vars data) in
  rootmost t' = rootmost t
  ∧ ExecuteI18N executeList t' tr w vars data pool
    = Runtime_recover (executeList st' (Root (rootmost t))) None
        (snd (pool_State_Get pool))
  ∧ blocks st' = processedBlocks t'.
Proof.
  intros Hchain st'.
  assert (rootmost t' = rootmost t) as Hroot.
  { induction Hchain as [t | t parent t' Ht _ IH]; [done |].
    by rewrite (rootmost_unfold t), Ht. }
  split; [exact Hroot |]. split.
  - rewrite ExecuteI18N_unfold. by rewrite Hroot.
  - subst st'. unfold ExecuteI18N_bind. by destruct (isNil data).
Qed.

End Chains.

(** ** Worked instances of the properties above *)

(** [Parse] of the relative path [mail/welcome.jet]. *)
Lemma Parse_absolute_name_witness :
  let name := path.Join ["/"; filepath.ToSlash filepath.unix "mail/welcome.jet"] in
  let r := parsePlain emptySet name "Hi" false world0 in
  path.IsAbs name = true
  ∧ Parse filepath.unix parsePlain emptySet "mail/welcome.jet" "Hi" world0
    = (fst (fst r), withTemplates (snd (fst r)) emptySet, snd r)
  ∧ templates (snd (fst (Parse filepath.unix parsePlain emptySet
                           "mail/welcome.jet" "Hi" world0)))
    = snd (fst r).
Proof.
  apply (Parse_hands_parser_absolute_name filepath.unix parsePlain emptySet
           "mail/welcome.jet" "Hi" world0);
    intros E; vm_compute in E; discriminate E.
Defined.

(** The Set over [/foo.jet] after [SetExtensions] with no entry. *)
Lemma empty_extension_list_witness :
  getTemplate parsePlain (SetExtensions [] fooJetSet) "/foo.jet" true world0
  = ((None, Some (fmt.Errorf "template " "/foo.jet" " could not be found")),
     SetExtensions [] fooJetSet, world0).
Proof.
  apply (empty_extension_list_finds_nothing parsePlain (SetExtensions [] fooJetSet)).
  reflexivity.
Defined.

(** The Set over [/foo.jet] in development mode. *)
Lemma development_mode_witness :
  let s := SetDevelopmentMode true fooJetSet in
  let r := getTemplate parsePlain s "/foo" true world0 in
  r = getTemplateFromLoader parsePlain s "/foo" true world0
  ∧ getTemplate parsePlain (snd (fst r)) "/foo" true (snd r)
    = getTemplateFromLoader parsePlain (snd (fst r)) "/foo" true (snd r).
Proof.
  apply (development_mode_always_reloads parsePlain (SetDevelopmentMode true fooJetSet)).
  reflexivity.
Defined.

(** A lookup of a path the empty loader does not hold. *)
Lemma failed_lookup_witness :
  getTemplate parsePlain emptySet "/missing" true world0
  = getTemplateFromLoader parsePlain emptySet "/missing" true world0.
Proof.
  apply (failed_or_uncached_lookup_stores_nothing parsePlain emptySet).
  - reflexivity.
  - vm_compute; reflexivity.
  - right. vm_compute. discriminate.
Defined.

(** The Set that has cached [/foo.jet] answers [/foo] through the
    candidate [".jet"]. *)
Lemma cached_candidate_witness :
  getTemplate parsePlain fooBothSetWarm "/foo" true world0
  = ((Some {| addr := 0; ParseName := "/foo.jet"; extends := None; imports := [];
              processedBlocks := ∅; Root := ["jet"]; set := Some 0 |}, None),
     fooBothSetWarm, world0).
Proof.
  apply (cached_candidate_answers_without_loader parsePlain fooBothSetWarm "/foo" true
           world0 [""] ".jet" [".html.jet"; ".jet.html"]).
  - vm_compute; reflexivity.
  - vm_compute; reflexivity.
  - intros e' He'. apply list_elem_of_singleton in He'. subst e'.
    vm_compute; reflexivity.
  - vm_compute; reflexivity.
Defined.

(** The loader holding [/foo] and [/foo.jet] was built by two [Set] calls. *)
Lemma InMemLoader_keys_witness :
  (∀ k, is_Some (files fooBothLoader !! k) → path.IsAbs k = true)
  ∧ (∀ k, path.IsAbs k = false → Exists fooBothLoader k = ("", false)).
Proof.
  apply (InMemLoader_keys_are_absolute filepath.unix fooBothLoader).
  unfold fooBothLoader. apply built_Set, built_Set, built_new.
Defined.

(** The Set over [/foo.jet]: the candidate [""] is not registered, [".jet"]
    is. *)
Lemma InMemLoader_lookup_witness :
  let r := parsePlain fooJetSet ("/foo" +:+ ".jet") "text" true
             (logCall (CallOpen ("/foo" +:+ ".jet"))
                (logCalls (probes "/foo" ([""] ++ [".jet"])) world0)) in
  getTemplateFromLoader parsePlain fooJetSet "/foo" true world0
  = (fst (fst r), withTemplates (snd (fst r)) fooJetSet, snd r).
Proof.
  apply (InMemLoader_lookup_parses_first_registered parsePlain fooJetSet "/foo" true
           world0 [""] ".jet" [".html.jet"; ".jet.html"] "text").
  - reflexivity.
  - intros e' He'. apply list_elem_of_singleton in He'. subst e'.
    vm_compute; reflexivity.
  - vm_compute; reflexivity.
Defined.

(** [foo.jet] was registered as a relative path and is looked up as one. *)
Lemma GetTemplate_registered_witness :
  let q := path.Join ["/"; filepath.ToSlash filepath.unix "foo.jet"] in
  fst (fst (GetTemplate filepath.unix parsePlain fooJetSet "foo.jet" world0))
  = fst (fst (parsePlain fooJetSet q "text" true
                (logCall (CallOpen q) (logCall (CallExists q) world0)))).
Proof.
  apply (GetTemplate_finds_what_Set_registered filepath.unix parsePlain fooJetSet
           "foo.jet" "text" world0 NewInMemLoader [".jet"; ".html.jet"; ".jet.html"]).
  - reflexivity.
  - reflexivity.
  - reflexivity.
  - right. vm_compute; reflexivity.
Defined.

(** On the mail host [/srv/views/mail] is a directory and
    [/srv/views/mail.jet] a file. *)
Lemma directory_candidate_witness :
  getTemplateFromLoader parseText mailSet "/mail" true world0
  = loadFromFile parseText mailSet ("/mail" +:+ ".jet") true
      (logCalls (probes "/mail" ([""] ++ [".jet"])) world0).
Proof.
  apply (directory_candidate_is_skipped parseText mailSet "/mail" true world0
           [""] ".jet" [".html.jet"; ".jet.html"] {| IsDir := false |}).
  - reflexivity.
  - intros e' He'. apply list_elem_of_singleton in He'. subst e'.
    vm_compute; reflexivity.
  - vm_compute; reflexivity.
  - reflexivity.
Defined.

(** On the mail host [/srv/views/locked.jet] exists and cannot be opened. *)
Lemma load_error_witness :
  getTemplate parseText mailSet "/locked" true world0
  = ((None, Some (errorString "permission denied")), mailSet,
     logCall (CallOpen ("/locked" +:+ ".jet"))
       (logCalls (probes "/locked" ([""] ++ [".jet"])) world0)).
Proof.
  apply (load_error_is_returned_as_is parseText mailSet "/locked" true world0
           [""] ".jet" [".html.jet"; ".jet.html"]).
  - reflexivity.
  - intros e' He'. apply list_elem_of_singleton in He'. subst e'.
    vm_compute; reflexivity.
  - vm_compute; reflexivity.
  - left. vm_compute; reflexivity.
  - right. vm_compute; reflexivity.
Defined.

(** The base template is one step up the chain of the child. *)
Lemma extends_chain_witness :
  let st' := fst (ExecuteI18N_bind (fst (pool_State_Get [])) baseTemplate None
                    stdout ∅ anyNil) in
  rootmost baseTemplate = rootmost childTemplate
  ∧ ExecuteI18N writeNodes baseTemplate None stdout ∅ anyNil []
    = Runtime_recover (writeNodes st' (Root (rootmost childTemplate))) None
        (snd (pool_State_Get []))
  ∧ blocks st' = processedBlocks baseTemplate.
Proof.
  apply (extends_chain_executes_one_tree writeNodes childTemplate baseTemplate).
  apply (chain_up childTemplate baseTemplate); [reflexivity | apply chain_here].
Defined.

(** The mail Set finds [mail.jet] beside the directory [mail]. *)
Example mailSet_loads_mail_jet :
  fst (fst (GetTemplate filepath.unix parseText mailSet "mail" world0))
  = (Some {| addr := 0; ParseName := "/mail.jet"; extends := None; imports := [];
             processedBlocks := ∅; Root := ["Dear reader"]; set := Some 0 |}, None).
Proof. vm_compute; reflexivity. Qed.

(** [String] of a template with a parent, two imports and a body. *)
Example String_of_importing_template :
  Template_String (fun root : TextTree => length root) joinSlash (fun name => name)
    importingTemplate
  = joinLines ["{{extends /base.jet}}"; "{{import /child.jet}}";
               "{{import /base.jet}}"; "page body"].
Proof. vm_compute; reflexivity. Qed.

(** ** Normal forms of paths *)

Lemma charFree_append (c : ascii) (a b : string) :
  charFree c (a +:+ b) = charFree c a && charFree c b.
Proof.
  induction a as [| x a IH]; [done |].
  change (charFree c (String x (a +:+ b)) = charFree c (String x a) && charFree c b).
  simpl. rewrite IH. by rewrite andb_assoc.
Qed.

Lemma splitSlash_not_nil (p : string) : splitSlash p ≠ [].
Proof.
  induction p as [| c p IH]; simpl; [done |].
  destruct (Ascii.eqb c "/"); [done |]. by destruct (splitSlash p).
Qed.

(** No element between slashes holds a slash, and none holds a character
    the path does not hold. *)
Lemma splitSlash_slash_free (p : string) :
  Forall (fun e => charFree "/" e = true) (splitSlash p).
Proof.
  induction p as [| c p IH]; simpl; [by repeat constructor |].
  destruct (Ascii.eqb c "/") eqn:Hc; [by constructor |].
  destruct (splitSlash p) as [| e es]; [by repeat constructor; simpl; rewrite Hc |].
  inversion IH; subst. constructor; [| done]. simpl. by rewrite Hc.
Qed.

Lemma splitSlash_char_free (c : ascii) (p : string) :
  charFree c p = true → Forall (fun e => charFree c e = true) (splitSlash p).
Proof.
  induction p as [| x p IH]; simpl; [by repeat constructor |].
  intros [Hx Hp]%andb_true_iff. specialize (IH Hp).
  destruct (Ascii.eqb x "/"); [by constructor |].
  destruct (splitSlash p) as [| e es]; [by repeat constructor; simpl; rewrite Hx |].
  inversion IH; subst. constructor; [| done]. simpl. by rewrite Hx.
Qed.

Lemma splitSlash_one_element (e : string) :
  charFree "/" e = true → splitSlash e = [e].
Proof.
  induction e as [| c e IH]; simpl; [done |].
  intros [Hc He]%andb_true_iff. apply negb_true_iff in Hc. rewrite Hc.
  by rewrite IH.
Qed.

Lemma splitSlash_element_then (e x : string) :
  charFree "/" e = true → splitSlash (e +:+ "/" +:+ x) = e :: splitSlash x.
Proof.
  induction e as [| c e IH]; [done |].
  simpl. intros [Hc He]%andb_true_iff. apply negb_true_iff in Hc.
  change (String c e +:+ "/" +:+ x) with (String c (e +:+ "/" +:+ x)).
  simpl. rewrite Hc. by rewrite IH.
Qed.

Lemma splitSlash_joinSlash (es : list string) :
  es ≠ [] → Forall (fun e => charFree "/" e = true) es →
  splitSlash (joinSlash es) = es.
Proof.
  induction es as [| e es IH]; [done |]. intros _ Hall.
  inversion Hall as [| ? ? He Hes]; subst.
  destruct es as [| e' es]; [by apply splitSlash_one_element |].
  change (joinSlash (e :: e' :: es)) with (e +:+ "/" +:+ joinSlash (e' :: es)).
  rewrite splitSlash_element_then by done. by rewrite IH.
Qed.

Lemma joinSlash_char_free (c : ascii) (es : list string) :
  Ascii.eqb "/" c = false →
  Forall (fun e => charFree c e = true) es → charFree c (joinSlash es) = true.
Proof.
  intros Hc. induction es as [| e es IH]; [done |]. intros Hall.
  inversion Hall as [| ? ? He Hes]; subst.
  destruct es as [| e' es]; [done |].
  change (joinSlash (e :: e' :: es)) with (e +:+ "/" +:+ joinSlash (e' :: es)).
  rewrite !charFree_append, He, IH by done.
  change (charFree c "/") with (negb (Ascii.eqb "/" c) && true).
  by rewrite Hc.
Qed.

Lemma cleanStep_plain (rooted : bool) (out : list string) (e : string) :
  plainElement e → path.cleanStep rooted out e = e :: out.
Proof.
  intros (Hne & Hdot & Hdots & _). unfold path.cleanStep.
  destruct (String.eqb_spec e ""); [done |].
  destruct (String.eqb_spec e "."); [done |].
  by destruct (String.eqb_spec e "..").
Qed.

(** The stack [path.Clean] builds holds plain elements above a run of
    [".."] elements, and no [".."] at all for a rooted path. *)
Lemma cleanStep_stack (rooted : bool) (out : list string) (e : string) :
  charFree "/" e = true →
  (∃ front k, out = (front ++ repeat ".." k)%list ∧ Forall plainElement front
              ∧ (rooted = true → k = 0)) →
  ∃ front k, path.cleanStep rooted out e = (front ++ repeat ".." k)%list
             ∧ Forall plainElement front ∧ (rooted = true → k = 0).
Proof.
  intros He (front & k & -> & Hfront & Hk).
  destruct (String.eqb_spec e "") as [-> | Hne]; [by exists front, k |].
  destruct (String.eqb_spec e ".") as [-> | Hdot]; [by exists front, k |].
  destruct (String.eqb_spec e "..") as [-> | Hdots].
  - unfold path.cleanStep. simpl.
    destruct front as [| top front].
    + simpl. destruct k as [| k]; simpl.
      * destruct rooted; [by exists [], 0 | by exists [], 1].
      * exists [], (S (S k)). split; [done |]. split; [done |].
        intros Hr. by specialize (Hk Hr).
    + simpl. inversion Hfront as [| ? ? (_ & _ & Htop & _) Hrest]; subst.
      destruct (String.eqb_spec top ".."); [done |]. by exists front, k.
  - rewrite cleanStep_plain by done.
    exists (e :: front), k. split; [done |]. split; [| done].
    by constructor.
Qed.

Lemma fold_cleanStep_stack (rooted : bool) (es out : list string) :
  Forall (fun e => charFree "/" e = true) es →
  (∃ front k, out = (front ++ repeat ".." k)%list ∧ Forall plainElement front
              ∧ (rooted = true → k = 0)) →
  ∃ front k, fold_left (path.cleanStep rooted) es out = (front ++ repeat ".." k)%list
             ∧ Forall plainElement front ∧ (rooted = true → k = 0).
Proof.
  revert out. induction es as [| e es IH]; intros out Hall Hout; [done |].
  inversion Hall; subst. simpl. apply IH; [done |]. by apply cleanStep_stack.
Qed.

Lemma fold_cleanStep_dots (k j : nat) :
  fold_left (path.cleanStep false) (repeat ".." k) (repeat ".." j)
  = repeat ".." (k + j).
Proof.
  revert j. induction k as [| k IH]; intros j; [done |].
  simpl. replace (path.cleanStep false (repeat ".." j) "..") with (repeat ".." (S j))
    by (by destruct j).
  rewrite IH. by replace (k + S j) with (S (k + j)) by lia.
Qed.

Lemma fold_cleanStep_plain (rooted : bool) (es out : list string) :
  Forall plainElement es →
  fold_left (path.cleanStep rooted) es out = (rev es ++ out)%list.
Proof.
  revert out. induction es as [| e es IH]; intros out Hall; [done |].
  inversion Hall; subst. simpl. rewrite cleanStep_plain by done.
  rewrite IH by done. by rewrite <- app_assoc.
Qed.

(** Reading the elements of a finished stack again rebuilds the stack. *)
Lemma fold_cleanStep_again (rooted : bool) (front : list string) (k : nat) :
  Forall plainElement front → (rooted = true → k = 0) →
  fold_left (path.cleanStep rooted) (rev (front ++ repeat ".." k)%list) []
  = (front ++ repeat ".." k)%list.
Proof.
  intros Hfront Hk. rewrite rev_app_distr, fold_left_app.
  assert (rev (repeat ".." k) = repeat ".." k) as ->.
  { clear. induction k as [| k IH]; [done |].
    simpl. rewrite IH. clear. induction k as [| k IH]; [done |].
    simpl. by rewrite IH. }
  assert (fold_left (path.cleanStep rooted) (repeat ".." k) [] = repeat ".." k) as ->.
  { destruct rooted; [by rewrite Hk |].
    etrans; [apply (fold_cleanStep_dots k 0) |]. by rewrite Nat.add_0_r. }
  rewrite fold_cleanStep_plain by (by apply Forall_rev).
  by rewrite rev_involutive.
Qed.

Lemma IsAbs_joinSlash_relative (e : string) (es : list string) :
  e ≠ "" → charFree "/" e = true → path.IsAbs (joinSlash (e :: es)) = false.
Proof.
  destruct e as [| c e]; [done |]. simpl. intros _ [Hc _]%andb_true_iff.
  apply negb_true_iff in Hc. by destruct es.
Qed.

Lemma joinSlash_empty (es : list string) :
  Forall (fun e => e ≠ "") es → joinSlash es = "" → es = [].
Proof.
  destruct es as [| e es]; [done |]. intros Hall.
  inversion Hall as [| ? ? He _]; subst.
  destruct e as [| c e]; [done |]. by destruct es.
Qed.

Lemma stack_elements (front : list string) (k : nat) :
  Forall plainElement front →
  Forall (fun e => charFree "/" e = true) (rev (front ++ repeat ".." k)%list)
  ∧ Forall (fun e => e ≠ "") (rev (front ++ repeat ".." k)%list).
Proof.
  intros Hfront.
  assert (Forall (fun e => charFree "/" e = true ∧ e ≠ "") (front ++ repeat ".." k)%list)
    as Hall.
  { apply Forall_app. split.
    - eapply Forall_impl; [exact Hfront |]. by intros e (? & _ & _ & ?).
    - clear. induction k as [| k IH]; simpl; [done |]. by constructor. }
  apply Forall_rev in Hall.
  split; (eapply Forall_impl; [exact Hall |]); by intros e [? ?].
Qed.

Lemma Clean_rooted (body : string) :
  path.Clean (String "/" body)
  = "/" +:+ joinSlash (rev (fold_left (path.cleanStep true) (splitSlash body) [])).
Proof. reflexivity. Qed.

(** [path.Clean] returns a path that cleaning leaves as it is. *)
Lemma Clean_idempotent (p : string) : path.Clean (path.Clean p) = path.Clean p.
Proof.
  destruct (String.eqb_spec p "") as [-> | Hp]; [reflexivity |].
  destruct (fold_cleanStep_stack (path.IsAbs p) (splitSlash p) []
              (splitSlash_slash_free p)) as (front & k & Hout & Hfront & Hk).
  { by exists [], 0. }
  destruct (stack_elements front k Hfront) as [Hfree Hne].
  set (es := rev (front ++ repeat ".." k)%list) in *.
  assert (path.Clean p
          = if path.IsAbs p then "/" +:+ joinSlash es
            else if String.eqb (joinSlash es) "" then "." else joinSlash es) as HC.
  { unfold path.Clean. destruct (String.eqb_spec p ""); [done |]. by rewrite Hout. }
  assert (es ≠ [] →
          fold_left (path.cleanStep (path.IsAbs p)) (splitSlash (joinSlash es)) []
          = (front ++ repeat ".." k)%list) as Hagain.
  { intros Hes. rewrite splitSlash_joinSlash by done.
    by apply fold_cleanStep_again. }
  rewrite HC. destruct (path.IsAbs p) eqn:Hrooted.
  - change ("/" +:+ joinSlash es) with (String "/" (joinSlash es)).
    rewrite Clean_rooted.
    destruct (decide (es = [])) as [Hnil | Hes]; [by rewrite Hnil |].
    by rewrite Hagain.
  - destruct (String.eqb_spec (joinSlash es) "") as [Hempty | Hbody]; [reflexivity |].
    assert (es ≠ []) as Hes by (by intros Hnil; rewrite Hnil in Hbody).
    unfold path.Clean.
    destruct (String.eqb_spec (joinSlash es) ""); [done |].
    assert (path.IsAbs (joinSlash es) = false) as ->.
    { destruct es as [| e es']; [done |].
      inversion Hfree; inversion Hne; subst. by apply IsAbs_joinSlash_relative. }
    rewrite Hagain by done. fold es.
    by destruct (String.eqb_spec (joinSlash es) "").
Qed.

Lemma cleanStep_char_free (c : ascii) (rooted : bool) (out : list string) (e : string) :
  charFree c e = true → Forall (fun x => charFree c x = true) out →
  Forall (fun x => charFree c x = true) (path.cleanStep rooted out e).
Proof.
  intros He Hout. unfold path.cleanStep.
  destruct (String.eqb e "" || String.eqb e "."); [done |].
  destruct (String.eqb e "..").
  - destruct out as [| top below].
    + destruct rooted; [done | by constructor].
    + inversion Hout; subst. destruct (String.eqb top ".."); [by constructor | done].
  - by constructor.
Qed.

Lemma Clean_char_free (c : ascii) (p : string) :
  Ascii.eqb "/" c = false → Ascii.eqb "." c = false →
  charFree c p = true → charFree c (path.Clean p) = true.
Proof.
  intros Hslash Hdot Hp. unfold path.Clean.
  assert (charFree c "." = true) as Hdotstr.
  { change (charFree c ".") with (negb (Ascii.eqb "." c) && true). by rewrite Hdot. }
  destruct (String.eqb p ""); [done |].
  assert (Forall (fun x => charFree c x = true)
            (fold_left (path.cleanStep (path.IsAbs p)) (splitSlash p) [])) as Hout.
  { pose proof (splitSlash_char_free c p Hp) as Hes.
    assert (Forall (fun x => charFree c x = true) (@nil string)) as Hnil by done.
    revert Hnil. generalize (@nil string).
    induction Hes as [| e es He _ IH]; intros out Hout; [done |].
    simpl. apply IH. by apply cleanStep_char_free. }
  apply Forall_rev in Hout.
  pose proof (joinSlash_char_free c _ Hslash Hout) as Hbody.
  destruct (path.IsAbs p).
  - rewrite charFree_append, Hbody.
    change (charFree c "/") with (negb (Ascii.eqb "/" c) && true). by rewrite Hslash.
  - by destruct (String.eqb _ "").
Qed.

Lemma replaceSeparator_char_free (sep : ascii) (p : string) :
  Ascii.eqb "/" sep = false → charFree sep (filepath.replaceSeparator sep p) = true.
Proof.
  intros Hsep. induction p as [| x p IH]; [done |].
  simpl. rewrite IH. destruct (Ascii.eqb x sep) eqn:Hx; by rewrite ?Hsep, ?Hx.
Qed.

Lemma replaceSeparator_id (sep : ascii) (p : string) :
  charFree sep p = true → filepath.replaceSeparator sep p = p.
Proof.
  induction p as [| x p IH]; [done |].
  simpl. intros [Hx Hp]%andb_true_iff. apply negb_true_iff in Hx.
  by rewrite Hx, IH.
Qed.

Lemma ToSlash_ToSlash (os : filepath.GOOS) (p : string) :
  filepath.ToSlash os (filepath.ToSlash os p) = filepath.ToSlash os p.
Proof.
  destruct os; [done |]. unfold filepath.ToSlash. simpl.
  apply replaceSeparator_id. by apply replaceSeparator_char_free.
Qed.

Lemma Join_root_of_absolute (q : string) :
  path.IsAbs q = true → path.Join ["/"; q] = path.Clean q.
Proof.
  destruct q as [| c r]; [done |]. simpl. intros Hc.
  apply Ascii.eqb_eq in Hc as ->. reflexivity.
Qed.

Lemma Join_root (x : string) : path.Join ["/"; x] = path.Clean ("/" +:+ "/" +:+ x).
Proof. reflexivity. Qed.

(** The absolute, cleaned form [path.Join("/", filepath.ToSlash(p))] of a
    path is a fixed point of each step that makes it. *)
Lemma rooted_form_fixed (os : filepath.GOOS) (p : string) :
  let q := path.Join ["/"; filepath.ToSlash os p] in
  path.IsAbs q = true ∧ path.Clean q = q ∧ filepath.ToSlash os q = q
  ∧ path.Join ["/"; filepath.ToSlash os q] = q.
Proof.
  intros q.
  assert (path.IsAbs q = true) as Habs by (by apply IsAbs_Join).
  assert (path.Clean q = q) as Hclean by apply Clean_idempotent.
  assert (filepath.ToSlash os q = q) as Hslash.
  { destruct os; [done |].
    change (filepath.ToSlash filepath.windows q)
      with (filepath.replaceSeparator "\" q).
    apply replaceSeparator_id. subst q. rewrite Join_root.
    apply Clean_char_free; [done | done |].
    rewrite !charFree_append.
    change (filepath.ToSlash filepath.windows p)
      with (filepath.replaceSeparator "\" p).
    by rewrite replaceSeparator_char_free. }
  split; [done |]. split; [done |]. split; [done |].
  rewrite Hslash, Join_root_of_absolute by done. exact Hclean.
Qed.

(** Registering a file under the absolute, cleaned form of a path is
    registering it under the path: [Set] normalizes once and for all, so a
    second registration under either spelling replaces the first. *)
Theorem InMemLoader_Set_normalizes_once
    (os : filepath.GOOS) (p c c' : string) (l : InMemLoader) :
  let q := path.Join ["/"; filepath.ToSlash os p] in
  InMemLoader_Set os q c l = InMemLoader_Set os p c l
  ∧ InMemLoader_Set os q c' (InMemLoader_Set os p c l) = InMemLoader_Set os p c' l
  ∧ InMemLoader_Set os p c' (InMemLoader_Set os q c l) = InMemLoader_Set os p c' l.
Proof.
  intros q. destruct (rooted_form_fixed os p) as (_ & _ & _ & Hq). fold q in Hq.
  assert (InMemLoader_Set os q c l = InMemLoader_Set os p c l) as Hsame.
  { unfold InMemLoader_Set. by rewrite Hq. }
  split; [exact Hsame |].
  assert (∀ x, InMemLoader_Set os p c' (InMemLoader_Set os p x l)
               = InMemLoader_Set os p c' l) as Htwice.
  { intros x. unfold InMemLoader_Set; simpl. by rewrite insert_insert_eq. }
  split.
  - unfold InMemLoader_Set at 1. rewrite Hq.
    change (InMemLoader_Set os p c' (InMemLoader_Set os p c l) = InMemLoader_Set os p c' l).
    apply Htwice.
  - rewrite Hsame. apply Htwice.
Qed.

Section ResolvedPaths.

Context {ListNode BlockNode L : Type} `{Loader L}.

Variable os : filepath.GOOS.

Variable parse :
  Set_ ListNode BlockNode L → string → string → bool → World →
  (option (Template ListNode BlockNode) * option error)
  * gmap string (option (Template ListNode BlockNode)) * World.

(** Resolution is idempotent: [GetTemplate] of the path that
    [GetTemplate(p)] looks up is the same lookup as [GetTemplate(p)]. *)
Theorem GetTemplate_of_looked_up_path (s : Set_ ListNode BlockNode L) (p : string)
    (w : World) :
  let looked :=
    if path.IsAbs (filepath.ToSlash os p) then filepath.ToSlash os p
    else path.Join ["/"; filepath.ToSlash os p] in
  GetTemplate os parse s p w = getTemplate parse s looked true w
  ∧ GetTemplate os parse s looked w = GetTemplate os parse s p w.
Proof.
  intros looked.
  assert (∀ x, GetTemplate os parse s x w
               = getTemplate parse s
                   (if path.IsAbs (filepath.ToSlash os x) then filepath.ToSlash os x
                    else path.Join ["/"; filepath.ToSlash os x]) true w) as Hget.
  { intros x. unfold GetTemplate. rewrite getSiblingTemplate_looked_up.
    by rewrite ToSlash_root. }
  split; [apply Hget |].
  rewrite (Hget looked), (Hget p). fold looked.
  assert (filepath.ToSlash os looked = looked ∧ path.IsAbs looked = true) as [-> ->];
    [| done].
  subst looked. destruct (path.IsAbs (filepath.ToSlash os p)) eqn:Hp.
  - by rewrite ToSlash_ToSlash.
  - by destruct (rooted_form_fixed os p) as (? & _ & ? & _).
Qed.

(** The name [Parse] gives the parser is clean and free of the host's
    separator, and when that name is itself a path [Parse] accepts, parsing
    under it is the very same call. *)
Theorem Parse_name_is_normal_form (s : Set_ ListNode BlockNode L)
    (p contents : string) (w : World) :
  path.Base (filepath.ToSlash os p) ≠ "." →
  path.Base (filepath.ToSlash os p) ≠ "/" →
  let name := path.Join ["/"; filepath.ToSlash os p] in
  path.Clean name = name
  ∧ filepath.ToSlash os name = name
  ∧ (path.Base name ≠ "." → path.Base name ≠ "/" →
     Parse os parse s name contents w = Parse os parse s p contents w).
Proof.
  intros Hdot Hroot name.
  destruct (rooted_form_fixed os p) as (Habs & Hclean & Hslash & Hjoin).
  fold name in Habs, Hclean, Hslash, Hjoin.
  split; [done |]. split; [done |]. intros Hname Hname'.
  unfold Parse. fold name. rewrite Hjoin, Hslash.
  destruct (String.eqb_spec (path.Base (filepath.ToSlash os p)) "."); [done |].
  destruct (String.eqb_spec (path.Base (filepath.ToSlash os p)) "/"); [done |].
  destruct (String.eqb_spec (path.Base name) "."); [done |].
  by destruct (String.eqb_spec (path.Base name) "/").
Qed.

End ResolvedPaths.

(** [Parse] of a path that cleans to [/mail/welcome.jet]. *)
Lemma Parse_normal_form_witness :
  let name := path.Join ["/"; filepath.ToSlash filepath.unix "mail/../mail/welcome.jet"] in
  path.Clean name = name
  ∧ filepath.ToSlash filepath.unix name = name
  ∧ (path.Base name ≠ "." → path.Base name ≠ "/" →
     Parse filepath.unix parsePlain emptySet name "Hi" world0
     = Parse filepath.unix parsePlain emptySet "mail/../mail/welcome.jet" "Hi" world0).
Proof.
  apply (Parse_name_is_normal_form filepath.unix parsePlain emptySet
           "mail/../mail/welcome.jet" "Hi" world0);
    intros E; vm_compute in E; discriminate E.
Defined.

(** The normal form of a path with dot elements and doubled slashes. *)
Example rooted_form_of_untidy_path :
  path.Join ["/"; filepath.ToSlash filepath.windows "mail\.\\..\mail\welcome.jet"]
  = "/mail/welcome.jet".
Proof. vm_compute; reflexivity. Qed.
